(** * dnd-tracker: the 2FA code-entry scripts (static/js/main.js and its
      revisions)

    The scripts are DOM glue: on [DOMContentLoaded] they look up the
    one-time-code input, focus it, optionally attach an [input] listener
    that schedules a delayed form submission, and optionally schedule the
    dismissal of error flash messages.

    The embedding keeps the pieces of the browser the scripts touch:

    - the DOM as a forest of element handles in tree order, with the
      properties of every element object in a store indexed by handle
      (closures keep element objects, so a handle always has properties);
    - the event loop as explicit state: a clock, the list of pending
      timers in creation order, the registered listeners, the focused
      element, a log of the calls that leave the page ([submit],
      [click]) and of uncaught exceptions, and the record of the timer
      tasks the loop has run;
    - the three kinds of closures the scripts create as a small syntax
      ([Callback], [Listener], [Handler]) with an interpreter each. *)

From Stdlib Require Import List String Ascii NArith Bool Arith Lia.
Import ListNotations.
Local Open Scope string_scope.
Local Open Scope list_scope.

(** ** Strings *)

(** A JavaScript string is a sequence of UTF-16 code units, and [.length]
    counts them.  Attribute names and values, tag names and class tokens
    are only ever compared with ASCII literals, so they are kept as
    [string]; the value of a form control is only ever measured, so it is
    kept as the list of its code units. *)
Definition js_string := list N.

Definition js_length (s : js_string) : nat := List.length s.

(** The code units of a code point: itself, or a surrogate pair. *)
Definition code_units (cp : N) : js_string :=
  (if cp <? 65536 then [cp]
   else [55296 + (cp - 65536) / 1024; 56320 + (cp - 65536) mod 1024])%N.

Definition continuation (c : ascii) : N := N.land (N_of_ascii c) 63.

(** The JavaScript string a literal of this file stands for.  Rocq keeps
    a string as the bytes of its UTF-8 encoding: the bytes are decoded to
    code points and the code points encoded in UTF-16 (a byte sequence
    that is not UTF-8 gives U+FFFD). *)
Fixpoint utf16 (s : string) : js_string :=
  match s with
  | EmptyString => []
  | String c r =>
      let b := N_of_ascii c in
      if (b <? 128)%N then b :: utf16 r
      else if (b <? 192)%N then 65533%N :: utf16 r
      else
        match r with
        | EmptyString => [65533%N]
        | String c2 r2 =>
            if (b <? 224)%N
            then code_units ((b - 192) * 64 + continuation c2) ++ utf16 r2
            else
              match r2 with
              | EmptyString => [65533%N]
              | String c3 r3 =>
                  if (b <? 240)%N
                  then code_units (((b - 224) * 64 + continuation c2) * 64
                                   + continuation c3) ++ utf16 r3
                  else
                    match r3 with
                    | EmptyString => [65533%N]
                    | String c4 r4 =>
                        code_units
                          ((((b - 240) * 64 + continuation c2) * 64
                            + continuation c3) * 64 + continuation c4)
                          ++ utf16 r4
                    end
              end
        end
  end.

Definition is_digit (c : N) : bool := ((48 <=? c) && (c <=? 57))%N.

(** ** The DOM *)

Definition handle := nat.

#[warnings="-register-all"]
Inductive Tree := Node (h : handle) (children : list Tree).

(** Induction on trees, with the hypothesis on every child. *)
Fixpoint Tree_forall_ind (P : Tree -> Prop)
  (step : forall h cs, Forall P cs -> P (Node h cs)) (t : Tree) : P t :=
  match t with
  | Node h cs =>
      step h cs
        ((fix all (l : list Tree) : Forall P l :=
            match l with
            | [] => Forall_nil P
            | c :: r => Forall_cons c (Tree_forall_ind P step c) (all r)
            end) cs)
  end.

Definition root (t : Tree) : handle := match t with Node h _ => h end.
Definition childNodes (t : Tree) : list Tree :=
  match t with Node _ cs => cs end.

(** Tree order: a node, then its children's subtrees from first to last. *)
Fixpoint preorder (t : Tree) : list handle :=
  match t with Node h cs => h :: flat_map preorder cs end.

Definition tree_order (f : list Tree) : list handle := flat_map preorder f.

(** The descendants of the root of [t], in tree order. *)
Definition descendants (t : Tree) : list handle := tree_order (childNodes t).

(** First subtree, in tree order, whose root is [h]. *)
Fixpoint find_subtree_in (h : handle) (t : Tree) : option Tree :=
  let fix go (cs : list Tree) : option Tree :=
    match cs with
    | [] => None
    | c :: r => match find_subtree_in h c with
                | Some s => Some s
                | None => go r
                end
    end in
  match t with
  | Node x cs => if Nat.eqb x h then Some t else go cs
  end.

Fixpoint find_subtree (h : handle) (f : list Tree) : option Tree :=
  match f with
  | [] => None
  | t :: r => match find_subtree_in h t with
              | Some s => Some s
              | None => find_subtree h r
              end
  end.

(** Removes every subtree of [t] whose root is [h] and that has a parent
    in [t]. *)
Fixpoint prune_below (h : handle) (t : Tree) : Tree :=
  let fix go (cs : list Tree) : list Tree :=
    match cs with
    | [] => []
    | c :: r => if Nat.eqb (root c) h then go r
                else prune_below h c :: go r
    end in
  match t with Node x cs => Node x (go cs) end.

(** Removes every subtree of the forest whose root is [h], top level
    included. *)
Fixpoint prune (h : handle) (f : list Tree) : list Tree :=
  match f with
  | [] => []
  | t :: r => if Nat.eqb (root t) h then prune h r
              else prune_below h t :: prune h r
  end.

Record Style := mkStyle { transition : string; opacity : string }.

(** The properties of an element object the scripts read or write, and
    the one property of it the browser consults when they call [focus()].
    - [value] is [None] on an element that has no such property (a [div],
      a contenteditable element): reading it gives [undefined].
    - [form] is the form owner of a form control: [None] is JavaScript's
      [null] (and stands for [undefined] on elements that have no such
      property: calling a method on either throws the same [TypeError]).
    - [focusable] tells whether the element can take the focus: a
      disabled or hidden control and an element that is no focusable
      area cannot. *)
Record Element := mkElement {
  localName : string;
  attributes : list (string * string);
  classList : list string;
  value : option js_string;
  form : option handle;
  style : Style;
  focusable : bool
}.

(** A page: the children of the document node, the trees that were
    detached from it but are still referenced by script, and the element
    objects.  A handle that occurs in neither forest is an element with
    neither parent nor children. *)
Record Page := mkPage {
  document : list Tree;
  detached : list Tree;
  element : handle -> Element
}.

Fixpoint getAttribute (name : string) (attrs : list (string * string))
  : option string :=
  match attrs with
  | [] => None
  | (n, v) :: r => if String.eqb n name then Some v else getAttribute name r
  end.

Definition attr_is (p : Page) (name val : string) (h : handle) : bool :=
  match getAttribute name (attributes (element p h)) with
  | Some v => String.eqb v val
  | None => false
  end.

(** The selectors the scripts use: [tag[attr="val"]] and [.cls]. *)
Inductive Selector :=
| TagAttr (tag attr val : string)
| Class (cls : string).

Definition matches (p : Page) (s : Selector) (h : handle) : bool :=
  match s with
  | TagAttr tag attr val =>
      String.eqb (localName (element p h)) tag && attr_is p attr val h
  | Class cls =>
      existsb (String.eqb cls) (classList (element p h))
  end.

(** [document.getElementById(id)] *)
Definition getElementById (id : string) (p : Page) : option handle :=
  find (attr_is p "id" id) (tree_order (document p)).

(** [document.querySelector(s)] *)
Definition querySelector (s : Selector) (p : Page) : option handle :=
  find (matches p s) (tree_order (document p)).

(** [document.querySelectorAll(s)] *)
Definition querySelectorAll (s : Selector) (p : Page) : list handle :=
  filter (matches p s) (tree_order (document p)).

(** The subtree an element object roots, wherever it currently is. *)
Definition subtree_of (p : Page) (h : handle) : Tree :=
  match find_subtree h (document p ++ detached p) with
  | Some t => t
  | None => Node h []
  end.

(** [el.querySelector(s)]: the first descendant of [el] matching [s]. *)
Definition element_querySelector (s : Selector) (p : Page) (el : handle)
  : option handle :=
  find (matches p s) (descendants (subtree_of p el)).

Definition set_form (f : option handle) (e : Element) : Element :=
  mkElement (localName e) (attributes e) (classList e) (value e) f (style e)
            (focusable e).

Definition inside (t : Tree) (h : handle) : bool :=
  existsb (Nat.eqb h) (preorder t).

(** The form owner of an element after the subtree [t] left its tree.
    The owner of a control is a form around it, or the form its [form]
    attribute names in the same tree: it is reset to [null] when the
    element and its owner are no longer in one tree, that is when one of
    the two is in [t] and the other is not. *)
Definition reset_form_owner (t : Tree) (h : handle) (e : Element) : Element :=
  match form e with
  | Some f => if Bool.eqb (inside t h) (inside t f) then e
              else set_form None e
  | None => e
  end.

(** [el.remove()]: takes [el], with its subtree, out of its parent's
    children, and resets the form owners this separates; nothing happens
    when [el] has no parent. *)
Definition remove (el : handle) (p : Page) : Page :=
  match find_subtree el (document p) with
  | Some t =>
      mkPage (prune el (document p)) (t :: detached p)
             (fun h => reset_form_owner t h (element p h))
  | None =>
      match find_subtree el (flat_map childNodes (detached p)) with
      | Some t =>
          mkPage (document p) (t :: map (prune_below el) (detached p))
                 (fun h => reset_form_owner t h (element p h))
      | None => p
      end
  end.

(** The ancestors of the first occurrence of [h] in [t], the parent
    first. *)
Fixpoint ancestors_in (h : handle) (t : Tree) : option (list handle) :=
  let fix go (cs : list Tree) : option (list handle) :=
    match cs with
    | [] => None
    | c :: r => match ancestors_in h c with
                | Some l => Some l
                | None => go r
                end
    end in
  match t with
  | Node x cs =>
      if Nat.eqb x h then Some []
      else match go cs with
           | Some l => Some (l ++ [x])
           | None => None
           end
  end.

Fixpoint ancestors_among (h : handle) (f : list Tree) : option (list handle) :=
  match f with
  | [] => None
  | t :: r => match ancestors_in h t with
              | Some l => Some l
              | None => ancestors_among h r
              end
  end.

Definition ancestors (p : Page) (h : handle) : list handle :=
  match ancestors_among h (document p ++ detached p) with
  | Some l => l
  | None => []
  end.

(** The path of an event dispatched at [el] that bubbles: [el], then its
    ancestors from the parent up, each node once. *)
Definition event_path (p : Page) (el : handle) : list handle :=
  nodup Nat.eq_dec (el :: ancestors p el).

Definition update_element (el : handle) (f : Element -> Element) (p : Page)
  : Page :=
  mkPage (document p) (detached p)
         (fun h => if Nat.eqb h el then f (element p h) else element p h).

Definition set_transition (v : string) (e : Element) : Element :=
  mkElement (localName e) (attributes e) (classList e) (value e) (form e)
            (mkStyle v (opacity (style e))) (focusable e).

Definition set_opacity (v : string) (e : Element) : Element :=
  mkElement (localName e) (attributes e) (classList e) (value e) (form e)
            (mkStyle (transition (style e)) v) (focusable e).

(** The value of a control after an edit, and the absent value of an
    element that has no such property. *)
Definition set_value (v : js_string) (e : Element) : Element :=
  mkElement (localName e) (attributes e) (classList e) (Some v) (form e)
            (style e) (focusable e).

Definition no_value (e : Element) : Element :=
  mkElement (localName e) (attributes e) (classList e) None (form e)
            (style e) (focusable e).

(** ** The lookup of the code input

    main.js, lines 4-10 and 20-26 (the same three steps in every revision):
    by id [code], then the first [input] whose [pattern] is the six-digit
    regular expression, then the first [input] whose [maxlength] is 6. *)
Definition findCodeInput (p : Page) : option handle :=
  let codeInput := getElementById "code" p in
  let codeInput :=
    match codeInput with
    | Some _ => codeInput
    | None => querySelector (TagAttr "input" "pattern" "[0-9]{6}") p
    end in
  let codeInput :=
    match codeInput with
    | Some _ => codeInput
    | None => querySelector (TagAttr "input" "maxlength" "6") p
    end in
  codeInput.

(** ** Closures, timers, listeners *)

Inductive JsError := TypeError.

(** The result of running a piece of script. *)
Inductive Completion (A : Type) :=
| Normal (a : A)
| Throw (e : JsError).
Arguments Normal {A} a.
Arguments Throw {A} e.

(** The functions passed to [setTimeout]:
    - [SubmitForm e_target] is [() => { e.target.form.submit(); }];
    - [DismissMessage message] is the function of the flash block that
      clicks the close button or fades the message out;
    - [RemoveMessage message] is [function() { message.remove(); }]. *)
Inductive Callback :=
| SubmitForm (e_target : handle)
| DismissMessage (message : handle)
| RemoveMessage (message : handle).

(** The only function passed to [addEventListener]:
    [function(e) { if (e.target.value.length === 6) { setTimeout(...) } }]. *)
Inductive Listener := SubmitWhenComplete.

(** The functions registered for [DOMContentLoaded]. *)
Inductive Handler := AutoFocus | AutoSubmit | FlashDismiss.

Record Timer := mkTimer { due : N; callback : Callback }.

Record Registration := mkRegistration {
  target : handle;
  eventType : string;
  listener : Listener
}.

(** What leaves the page, and what the console reports.  [submit()] and
    [click()] are recorded as calls: what the browser and other scripts do
    with them (the navigation a submitted form starts, the handler of a
    close button) is not part of these scripts, and the model keeps the
    page alive. *)
Inductive Effect :=
| Submitted (form_el : handle)
| Clicked (button : handle)
| Uncaught (e : JsError).

(** The state of the browser the scripts see: the clock in milliseconds,
    the page, the pending timers in creation order, the registered
    listeners in registration order, the focused element
    ([document.activeElement]; [None] when no element has the focus and
    the property gives the body), the log, and the record of the timer
    tasks that have run with the time each started. *)
Record World := mkWorld {
  now : N;
  page : Page;
  timers : list Timer;
  listeners : list Registration;
  activeElement : option handle;
  log : list Effect;
  history : list (N * Timer)
}.

Definition on_page (f : Page -> Page) (w : World) : World :=
  mkWorld (now w) (f (page w)) (timers w) (listeners w) (activeElement w)
          (log w) (history w).

Definition set_timers (ts : list Timer) (w : World) : World :=
  mkWorld (now w) (page w) ts (listeners w) (activeElement w) (log w)
          (history w).

Definition emit (e : Effect) (w : World) : World :=
  mkWorld (now w) (page w) (timers w) (listeners w) (activeElement w)
          (log w ++ [e]) (history w).

(** The loop's own record: which timer task started, and when. *)
Definition started (tm : Timer) (w : World) : World :=
  mkWorld (now w) (page w) (timers w) (listeners w) (activeElement w)
          (log w) (history w ++ [(now w, tm)]).

(** [setTimeout(cb, delay)]: one more pending timer, due [delay]
    milliseconds from now.  The scripts never keep the returned id. *)
Definition setTimeout (cb : Callback) (delay : N) (w : World) : World :=
  set_timers (timers w ++ [mkTimer (now w + delay) cb]) w.

(** [el.addEventListener(type, l)] with a fresh function object. *)
Definition addEventListener (el : handle) (type : string) (l : Listener)
  (w : World) : World :=
  mkWorld (now w) (page w) (timers w)
          (listeners w ++ [mkRegistration el type l])
          (activeElement w) (log w) (history w).

(** [el.focus()]: [el] becomes the active element when it can take the
    focus; the call does nothing otherwise. *)
Definition focus (el : handle) (w : World) : World :=
  if focusable (element (page w) el)
  then mkWorld (now w) (page w) (timers w) (listeners w) (Some el) (log w)
               (history w)
  else w.

(** [el.remove()] on the page of [w].  When the subtree that leaves the
    document holds the active element, the focus goes back to the body. *)
Definition detach (el : handle) (w : World) : World :=
  mkWorld (now w) (remove el (page w)) (timers w) (listeners w)
          (match activeElement w, find_subtree el (document (page w)) with
           | Some a, Some t => if inside t a then None else Some a
           | a, _ => a
           end)
          (log w) (history w).

(** [form.submit()] and [button.click()] *)
Definition submit (form_el : handle) (w : World) : World :=
  emit (Submitted form_el) w.

Definition click (button : handle) (w : World) : World :=
  emit (Clicked button) w.

(** A method call [receiver.method()] on a value that may be [null]. *)
Definition invoke (receiver : option handle)
  (method : handle -> World -> World) (w : World) : Completion World :=
  match receiver with
  | Some object => Normal (method object w)
  | None => Throw TypeError
  end.

Definition run_callback (cb : Callback) (w : World) : Completion World :=
  match cb with
  | SubmitForm e_target =>
      invoke (form (element (page w) e_target)) submit w
  | DismissMessage message =>
      let closeButton :=
        element_querySelector (Class "btn-close") (page w) message in
      match closeButton with
      | Some b => Normal (click b w)
      | None =>
          let w :=
            on_page (update_element message
                       (set_transition "opacity 0.5s")) w in
          let w := on_page (update_element message (set_opacity "0")) w in
          Normal (setTimeout (RemoveMessage message) 500 w)
      end
  | RemoveMessage message => Normal (detach message w)
  end.

Definition run_listener (l : Listener) (e_target : handle) (w : World)
  : Completion World :=
  match l with
  | SubmitWhenComplete =>
      match value (element (page w) e_target) with
      | Some v =>
          if Nat.eqb (js_length v) 6
          then Normal (setTimeout (SubmitForm e_target) 500 w)
          else Normal w
      | None => Throw TypeError
      end
  end.

Definition run_handler (h : Handler) (w : World) : Completion World :=
  match h with
  | AutoFocus =>
      match findCodeInput (page w) with
      | Some codeInput => Normal (focus codeInput w)
      | None => Normal w
      end
  | AutoSubmit =>
      match findCodeInput (page w) with
      | Some codeInput =>
          Normal (addEventListener codeInput "input" SubmitWhenComplete w)
      | None => Normal w
      end
  | FlashDismiss =>
      let errorMessages := querySelectorAll (Class "alert-error") (page w) in
      Normal (fold_left
                (fun w message =>
                   setTimeout (DismissMessage message) (5 * 60 * 1000) w)
                errorMessages w)
  end.

(** ** The event loop *)

(** An exception that escapes a task is reported and the loop goes on. *)
Definition report (c : Completion World) (w : World) : World :=
  match c with
  | Normal w' => w'
  | Throw e => emit (Uncaught e) w
  end.

Definition listens (type : string) (el : handle) (r : Registration) : bool :=
  Nat.eqb (target r) el && String.eqb (eventType r) type.

(** The listeners that hear an event of type [type] dispatched at [el],
    in the order they run: along the path of the event, and for each node
    of the path in registration order. *)
Definition hearing (type : string) (el : handle) (p : Page)
  (rs : list Registration) : list Registration :=
  flat_map (fun node => filter (listens type node) rs) (event_path p el).

(** Dispatch of a bubbling event of type [type] at [el]: every listener
    that hears it runs with [e.target = el]. *)
Definition dispatchEvent (type : string) (el : handle) (w : World) : World :=
  fold_left (fun w r => report (run_listener (listener r) el w) w)
            (hearing type el (page w) (listeners w)) w.

(** An [input] event at a control: the user edits [el], its value is then
    [v], and the event is dispatched at it. *)
Definition user_input (el : handle) (v : js_string) (w : World) : World :=
  dispatchEvent "input" el (on_page (update_element el (set_value v)) w).

(** An [input] event at an element that has no value property: the user
    edits the contenteditable element [el], and the event is dispatched
    at it. *)
Definition content_input (el : handle) (w : World) : World :=
  dispatchEvent "input" el (on_page (update_element el no_value) w).

(** The user moves the focus: to an element (a click on it, the tab key),
    which takes it if it can, or away from every element (a click on the
    page). *)
Definition user_focus (target : option handle) (w : World) : World :=
  match target with
  | Some el => focus el w
  | None =>
      mkWorld (now w) (page w) (timers w) (listeners w) None (log w)
              (history w)
  end.

Definition is_due (t : N) (tm : Timer) : bool := (due tm <=? t)%N.

(** The timer to run next and the timers that stay: among the timers due
    at [t], the one with the earliest deadline, the oldest on a tie. *)
Fixpoint next_timer (t : N) (ts : list Timer) : option (Timer * list Timer) :=
  match ts with
  | [] => None
  | tm :: r =>
      match next_timer t r with
      | Some (tm', r') =>
          if is_due t tm && (due tm <=? due tm')%N then Some (tm, r)
          else Some (tm', tm :: r')
      | None => if is_due t tm then Some (tm, r) else None
      end
  end.

(** One timer task: the timer leaves the list (it is one-shot), then its
    callback runs.  [None] when no timer is due. *)
Definition fire (w : World) : option World :=
  match next_timer (now w) (timers w) with
  | Some (tm, rest) =>
      let w := started tm (set_timers rest w) in
      Some (report (run_callback (callback tm) w) w)
  | None => None
  end.

Definition tick (dt : N) (w : World) : World :=
  mkWorld (now w + dt) (page w) (timers w) (listeners w) (activeElement w)
          (log w) (history w).

(** Runs timer tasks until no timer is due.  The scripts only create
    timers with a positive delay, so the timers due now are the only ones
    to run and their number is enough fuel ([drain_complete]). *)
Fixpoint fire_all (fuel : nat) (w : World) : World :=
  match fuel with
  | O => w
  | S n => match fire w with
           | Some w' => fire_all n w'
           | None => w
           end
  end.

Definition drain (w : World) : World := fire_all (List.length (timers w)) w.

(** A revision of the script: its [DOMContentLoaded] handlers in
    registration order. *)
Definition Script := list Handler.

(** static/js/main.js *)
Definition main_js : Script := [AutoFocus; AutoSubmit].
(** the revision with auto-submit disabled (first document of part_000) *)
Definition main_js_focus_only : Script := [AutoFocus].
(** the revision with the flash messages (second document of part_000) *)
Definition main_js_flash : Script := [AutoFocus; AutoSubmit; FlashDismiss].
(** the documented revision (part_001) *)
Definition main_js_documented : Script := [AutoFocus].

(** The page-ready signal: every handler runs, in registration order. *)
Definition domContentLoaded (s : Script) (w : World) : World :=
  fold_left (fun w h => report (run_handler h w) w) s w.

(** What happens after the page is ready. *)
Inductive Action :=
| Tick (dt : N)
| Fire
| UserInput (el : handle) (v : js_string)
| ContentInput (el : handle)
| UserFocus (target : option handle)
| Mutate (f : Page -> Page).

Definition step (a : Action) (w : World) : World :=
  match a with
  | Tick dt => tick dt w
  | Fire => match fire w with Some w' => w' | None => w end
  | UserInput el v => user_input el v w
  | ContentInput el => content_input el w
  | UserFocus target => user_focus target w
  | Mutate f => on_page f w
  end.

Definition run (acts : list Action) (w : World) : World :=
  fold_left (fun w a => step a w) acts w.

(** The state in which a freshly parsed page receives the page-ready
    signal, [t] milliseconds after the navigation started. *)
Definition loaded (t : N) (p : Page) : World :=
  mkWorld t p [] [] None [] [].

(** ** Vocabulary of the statements *)

Definition has_id (p : Page) (id : string) (h : handle) : Prop :=
  getAttribute "id" (attributes (element p h)) = Some id.

Definition input_with (p : Page) (attr val : string) (h : handle) : Prop :=
  localName (element p h) = "input" /\
  getAttribute attr (attributes (element p h)) = Some val.

Definition has_class (p : Page) (cls : string) (h : handle) : Prop :=
  In cls (classList (element p h)).

(** [h] is the first element of [l] with property [P]. *)
Definition first_such (P : handle -> Prop) (l : list handle) (h : handle)
  : Prop :=
  exists before after,
    l = before ++ h :: after /\ P h /\ forall x, In x before -> ~ P x.

Definition none_such (P : handle -> Prop) (l : list handle) : Prop :=
  forall x, In x l -> ~ P x.

(** The lookup rules as the specification words them: ordered, first
    match wins. *)
Inductive chosen (p : Page) : option handle -> Prop :=
| chosen_by_id h :
    first_such (has_id p "code") (tree_order (document p)) h ->
    chosen p (Some h)
| chosen_by_pattern h :
    none_such (has_id p "code") (tree_order (document p)) ->
    first_such (input_with p "pattern" "[0-9]{6}")
               (tree_order (document p)) h ->
    chosen p (Some h)
| chosen_by_maxlength h :
    none_such (has_id p "code") (tree_order (document p)) ->
    none_such (input_with p "pattern" "[0-9]{6}")
              (tree_order (document p)) ->
    first_such (input_with p "maxlength" "6") (tree_order (document p)) h ->
    chosen p (Some h)
| chosen_none :
    none_such (has_id p "code") (tree_order (document p)) ->
    none_such (input_with p "pattern" "[0-9]{6}")
              (tree_order (document p)) ->
    none_such (input_with p "maxlength" "6") (tree_order (document p)) ->
    chosen p None.

(** No handle occurs twice in the document: an element has one place. *)
Fixpoint distinct (l : list handle) : bool :=
  match l with
  | [] => true
  | x :: r => negb (existsb (Nat.eqb x) r) && distinct r
  end.

Definition well_formed (p : Page) : bool :=
  distinct (tree_order (document p)).

Definition callback_eqb (a b : Callback) : bool :=
  match a, b with
  | SubmitForm x, SubmitForm y => Nat.eqb x y
  | DismissMessage x, DismissMessage y => Nat.eqb x y
  | RemoveMessage x, RemoveMessage y => Nat.eqb x y
  | _, _ => false
  end.

Definition timer_eqb (a b : Timer) : bool :=
  N.eqb (due a) (due b) && callback_eqb (callback a) (callback b).

Definition count {A : Type} (P : A -> bool) (l : list A) : nat :=
  List.length (filter P l).

Definition calls (cb : Callback) (tm : Timer) : bool :=
  callback_eqb (callback tm) cb.

(** Timers with callback [cb] that are waiting, and that have run. *)
Definition pending (cb : Callback) (w : World) : nat :=
  count (calls cb) (timers w).

Definition ran (cb : Callback) (w : World) : nat :=
  count (calls cb) (map snd (history w)).

(** The same for one timer, deadline included. *)
Definition pending_timer (tm : Timer) (w : World) : nat :=
  count (timer_eqb tm) (timers w).

Definition ran_timer (tm : Timer) (w : World) : nat :=
  count (timer_eqb tm) (map snd (history w)).

(** The [input] events at [el] with a value of six code units. *)
Definition completes (el : handle) (a : Action) : bool :=
  match a with
  | UserInput x v => Nat.eqb x el && Nat.eqb (js_length v) 6
  | _ => false
  end.

(** The revisions that attach the auto-submit listener, the ones that do
    not, and all of them. *)
Definition with_auto_submit : list Script := [main_js; main_js_flash].
Definition focus_only : list Script :=
  [main_js_focus_only; main_js_documented].
Definition revisions : list Script := with_auto_submit ++ focus_only.

(** The registration the auto-submit handler makes on the code input. *)
Definition auto_submit_on (codeInput : handle) : Registration :=
  mkRegistration codeInput "input" SubmitWhenComplete.

(** The timer that registration creates at time [t]. *)
Definition submit_timer (t : N) (codeInput : handle) : Timer :=
  mkTimer (t + 500) (SubmitForm codeInput).

(** The timer the flash handler creates at time [t] for [message]. *)
Definition dismiss_timer (t : N) (message : handle) : Timer :=
  mkTimer (t + 5 * 60 * 1000) (DismissMessage message).

(** The active element after page-ready on a freshly parsed page [p]: the
    element the lookup finds, when it can take the focus. *)
Definition focused (p : Page) : option handle :=
  match findCodeInput p with
  | Some c => if focusable (element p c) then Some c else None
  | None => None
  end.

(** The registrations page-ready makes on [p] when the script attaches
    the auto-submit listener. *)
Definition registrations (p : Page) : list Registration :=
  match findCodeInput p with
  | Some c => [auto_submit_on c]
  | None => []
  end.

(** Several entries added to the log at once. *)
Definition emit_all (es : list Effect) (w : World) : World :=
  mkWorld (now w) (page w) (timers w) (listeners w) (activeElement w)
          (log w ++ es) (history w).

(** What the listeners [rs] that hear an input event at [el] leave, by
    what they read as the value of [el]: a timer each when it has six
    code units, nothing when it has another length, an exception each
    when there is no value. *)
Definition heard (el : handle) (rs : list Registration) (w : World) : World :=
  match value (element (page w) el) with
  | Some v =>
      set_timers
        (timers w ++
           if Nat.eqb (js_length v) 6
           then map (fun _ => mkTimer (now w + 500) (SubmitForm el)) rs
           else []) w
  | None => emit_all (map (fun _ => Uncaught TypeError) rs) w
  end.

(** The timers an action creates: an input event creates one submit timer
    per listener that hears it when the value is complete. *)
Definition created (a : Action) (w : World) : list Timer :=
  match a with
  | UserInput el v =>
      if Nat.eqb (js_length v) 6
      then map (fun _ => submit_timer (now w) el)
               (hearing "input" el (page w) (listeners w))
      else []
  | _ => []
  end.

(** A callback leaves the clock, the listeners and the loop's record
    alone, appends at most one effect to the log and at most one timer,
    which removes a message 500 ms later. *)
Record task_frame (w w' : World) : Prop := {
  frame_now : now w' = now w;
  frame_listeners : listeners w' = listeners w;
  frame_history : history w' = history w;
  frame_timers :
    timers w' = timers w \/
    exists m, timers w' = timers w ++ [mkTimer (now w + 500) (RemoveMessage m)];
  frame_log : log w' = log w \/ exists e, log w' = log w ++ [e]
}.

(** Properties of the timers that hold in every state after page-ready,
    whatever the revision: a timer never runs before its deadline, and
    the dismissals are those scheduled at page-ready. *)
Record timing (t : N) (w : World) : Prop := {
  ran_when_due : forall at_ tm, In (at_, tm) (history w) -> (due tm <= at_)%N;
  dismiss_pending : forall tm m,
      In tm (timers w) -> callback tm = DismissMessage m ->
      due tm = (t + 5 * 60 * 1000)%N;
  dismiss_ran : forall at_ tm m,
      In (at_, tm) (history w) -> callback tm = DismissMessage m ->
      due tm = (t + 5 * 60 * 1000)%N
}.

(** Actions of the page's own life: everything but a change of the page
    made by someone else. *)
Definition own (a : Action) : bool :=
  match a with
  | Mutate _ => false
  | _ => true
  end.

(** The log entries a submit callback leaves: the call, or the exception. *)
Definition is_attempt (e : Effect) : bool :=
  match e with
  | Submitted _ | Uncaught _ => true
  | Clicked _ => false
  end.

Definition submitted (form_el : handle) (e : Effect) : bool :=
  match e with
  | Submitted x => Nat.eqb x form_el
  | _ => false
  end.

Definition is_submit_timer (tm : Timer) : bool :=
  match callback tm with
  | SubmitForm _ => true
  | _ => false
  end.

(** The close button the flash callback finds in [message], the style it
    gives a message without one, and, for a list of messages, the clicks
    it makes and the messages it fades. *)
Definition closeButton (p : Page) (message : handle) : option handle :=
  element_querySelector (Class "btn-close") p message.

Definition faded : Style := mkStyle "opacity 0.5s" "0".

Definition clicks (p : Page) (messages : list handle) : list Effect :=
  flat_map (fun m => match closeButton p m with
                     | Some b => [Clicked b]
                     | None => []
                     end) messages.

Definition fading (p : Page) (messages : list handle) : list handle :=
  filter (fun m => match closeButton p m with
                   | Some _ => false
                   | None => true
                   end) messages.

Definition remove_timer (t : N) (message : handle) : Timer :=
  mkTimer (t + 500) (RemoveMessage message).

(** The [input] events with a value of six code units, at whatever
    element; the actions other than an [input] event at an element
    without a value; the calls of [submit()] in the log. *)
Definition six_chars (a : Action) : bool :=
  match a with
  | UserInput _ v => Nat.eqb (js_length v) 6
  | _ => false
  end.

Definition valued (a : Action) : bool :=
  match a with
  | ContentInput _ => false
  | _ => true
  end.

Definition is_submitted (e : Effect) : bool :=
  match e with
  | Submitted _ => true
  | _ => false
  end.

(** Two element objects that differ in their value at most. *)
Definition same_but_value (e e' : Element) : Prop :=
  localName e = localName e' /\ attributes e = attributes e' /\
  classList e = classList e' /\ form e = form e' /\ style e = style e' /\
  focusable e = focusable e'.

(** The revisions without the flash handler. *)
Definition without_flash : list Script :=
  [main_js; main_js_focus_only; main_js_documented].

(** The order the flash revision keeps between dismissals and removals:
    a removal is due 500 ms after the dismissals' deadline at the
    earliest, and once a removal has run no dismissal is pending. *)
Record flash_order (t : N) (w : World) : Prop := {
  removes_late : forall tm m,
      In tm (timers w) -> callback tm = RemoveMessage m ->
      (t + 300000 + 500 <= due tm)%N;
  removes_ran_late : forall at_ tm m,
      In (at_, tm) (history w) -> callback tm = RemoveMessage m ->
      (t + 300000 + 500 <= at_)%N;
  dismissals_done : forall at_ tm m x m',
      In (at_, tm) (history w) -> callback tm = RemoveMessage m ->
      In x (timers w) -> callback x <> DismissMessage m'
}.

(** What page-ready found is not on the path of an event at [el]. *)
Definition off_path (p : Page) (w : World) (el : handle) : Prop :=
  forall c, findCodeInput p = Some c -> ~ In c (event_path (page w) el).

(** What stays when the subtrees rooted at [h] are pruned from a forest
    without repetition: everything outside the subtree found at [h]. *)
Definition kept (h x : handle) (s : option Tree) : Prop :=
  match s with
  | Some t => inside t x = false
  | None => True
  end.

(** ** Sample pages *)

Definition plain (tag : string) : Element :=
  mkElement tag [] [] None None (mkStyle "" "") false.

(** An empty text input with the given attributes and form owner. *)
Definition text_input (attrs : list (string * string)) (owner : option handle)
  : Element :=
  mkElement "input" attrs [] (Some []) owner (mkStyle "" "") true.

(** A login page: an error banner with a close button, one without, and a
    form with three inputs, each matching one lookup rule. *)
Definition login_elements (h : handle) : Element :=
  match h with
  | 0 => plain "html"
  | 1 => plain "body"
  | 2 => mkElement "div" [] ["alert"; "alert-error"] None None
                   (mkStyle "" "") false
  | 3 => mkElement "button" [] ["btn-close"] None None (mkStyle "" "") true
  | 4 => mkElement "div" [] ["alert-error"] None None (mkStyle "" "") false
  | 5 => plain "form"
  | 6 => text_input [("id", "code")] (Some 5)
  | 7 => text_input [("pattern", "[0-9]{6}")] (Some 5)
  | 8 => text_input [("maxlength", "6")] (Some 5)
  | _ => plain "div"
  end.

Definition login_page : Page :=
  mkPage
    [Node 0 [Node 1 [Node 2 [Node 3 []];
                     Node 4 [];
                     Node 5 [Node 7 []; Node 6 []; Node 8 []]]]]
    [] login_elements.

(** The code input outside of any form. *)
Definition formless_elements (h : handle) : Element :=
  match h with
  | 0 => plain "html"
  | 1 => plain "body"
  | 2 => text_input [("id", "code")] None
  | _ => plain "div"
  end.

Definition formless_page : Page :=
  mkPage [Node 0 [Node 1 [Node 2 []]]] [] formless_elements.

(** A page without a code input. *)
Definition bare_page : Page :=
  mkPage [Node 0 [Node 1 []]] [] (fun _ => plain "div").

(** The code input disabled: [<input id="code" disabled>] in its form. *)
Definition disabled_elements (h : handle) : Element :=
  match h with
  | 0 => plain "html"
  | 1 => plain "body"
  | 2 => plain "form"
  | 3 => mkElement "input" [("id", "code"); ("disabled", "")] [] (Some [])
                   (Some 2) (mkStyle "" "") false
  | _ => plain "div"
  end.

Definition disabled_page : Page :=
  mkPage [Node 0 [Node 1 [Node 2 [Node 3 []]]]] [] disabled_elements.

(** An error banner whose close button is not its child but the child of
    a wrapper: [<div class="alert-error"><div><button class="btn-close">]. *)
Definition wrapped_elements (h : handle) : Element :=
  match h with
  | 0 => plain "html"
  | 1 => plain "body"
  | 2 => mkElement "div" [] ["alert-error"] None None (mkStyle "" "") false
  | 3 => plain "div"
  | 4 => mkElement "button" [] ["btn-close"] None None (mkStyle "" "") true
  | _ => plain "div"
  end.

Definition wrapped_page : Page :=
  mkPage [Node 0 [Node 1 [Node 2 [Node 3 [Node 4 []]]]]] [] wrapped_elements.

(** The element with identifier [code] is a wrapper around the form and
    its input: [<div id="code"><form><input>]. *)
Definition wrapper_elements (h : handle) : Element :=
  match h with
  | 0 => plain "html"
  | 1 => plain "body"
  | 2 => mkElement "div" [("id", "code")] [] None None (mkStyle "" "") false
  | 3 => plain "form"
  | 4 => text_input [] (Some 3)
  | _ => plain "div"
  end.

Definition wrapper_page : Page :=
  mkPage [Node 0 [Node 1 [Node 2 [Node 3 [Node 4 []]]]]] [] wrapper_elements.

(** The code input inside an error banner without a close button, the
    banner inside the form:
    [<form><div class="alert-error"><input id="code">]. *)
Definition nested_elements (h : handle) : Element :=
  match h with
  | 0 => plain "html"
  | 1 => plain "body"
  | 2 => plain "form"
  | 3 => mkElement "div" [] ["alert-error"] None None (mkStyle "" "") false
  | 4 => text_input [("id", "code")] (Some 2)
  | _ => plain "div"
  end.

Definition nested_page : Page :=
  mkPage [Node 0 [Node 1 [Node 2 [Node 3 [Node 4 []]]]]] [] nested_elements.

(** * Properties *)

(** ** Sample runs *)

(** [.length] counts UTF-16 code units: one for U+00E9, two for
    U+1F600. *)
Example utf16_ascii : utf16 "123456" = [49; 50; 51; 52; 53; 54]%N.
Proof. reflexivity. Qed.

Example utf16_two_bytes :
  utf16 (String (ascii_of_nat 195) (String (ascii_of_nat 169) "")) = [233%N].
Proof. reflexivity. Qed.

Example utf16_surrogate_pair :
  utf16 (String (ascii_of_nat 240)
           (String (ascii_of_nat 159)
              (String (ascii_of_nat 152) (String (ascii_of_nat 128) ""))))
  = [55357; 56832]%N.
Proof. reflexivity. Qed.

Example lookup_on_login_page : findCodeInput login_page = Some 6.
Proof. reflexivity. Qed.

Example lookup_on_bare_page : findCodeInput bare_page = None.
Proof. reflexivity. Qed.

Example submit_after_500ms :
  log (run [UserInput 6 (utf16 "123456"); Tick 500; Fire]
         (domContentLoaded main_js (loaded 0 login_page)))
  = [Submitted 5].
Proof. reflexivity. Qed.

Example nothing_after_499ms :
  log (run [UserInput 6 (utf16 "123456"); Tick 499; Fire]
         (domContentLoaded main_js (loaded 0 login_page)))
  = [].
Proof. reflexivity. Qed.

Example seven_characters_schedule_nothing :
  timers (run [UserInput 6 (utf16 "1234567")]
            (domContentLoaded main_js (loaded 0 login_page)))
  = [].
Proof. reflexivity. Qed.

(** Page-ready focuses the code input; the user can move the focus. *)
Example focus_on_login_page :
  activeElement (domContentLoaded main_js (loaded 0 login_page)) = Some 6 /\
  activeElement (run [UserFocus (Some 7)]
                   (domContentLoaded main_js (loaded 0 login_page)))
  = Some 7.
Proof. split; reflexivity. Qed.

(** A disabled code input does not take the focus. *)
Example no_focus_on_disabled_page :
  activeElement (domContentLoaded main_js (loaded 0 disabled_page)) = None.
Proof. reflexivity. Qed.

(** The [input] event bubbles: the listener on [div#code] hears the event
    of the input inside it, and submits the form of that input; an event
    at the [div] itself, which has no value, raises. *)
Example input_inside_the_code_element :
  log (run [UserInput 4 (utf16 "123456"); Tick 500; Fire]
         (domContentLoaded main_js (loaded 0 wrapper_page)))
  = [Submitted 3] /\
  log (run [ContentInput 2] (domContentLoaded main_js (loaded 0 wrapper_page)))
  = [Uncaught TypeError].
Proof. split; reflexivity. Qed.

(** Once the banner around the code input has been removed, the input
    has left its form: the form owner is [null], the submit callback
    raises, and the input has lost the focus. *)
Example removed_input_has_no_form :
  let w :=
    drain (tick 500
             (drain (tick 300000
                       (domContentLoaded main_js_flash
                          (loaded 0 nested_page))))) in
  tree_order (document (page w)) = [0; 1; 2] /\
  form (element (page w) 4) = None /\
  activeElement w = None /\
  log (run [UserInput 4 (utf16 "123456"); Tick 500; Fire] w)
  = [Uncaught TypeError].
Proof. vm_compute. repeat split. Qed.

(** Five minutes after page-ready the banner with a close button gets a
    click and the one without starts to fade; half a second later the
    latter is out of the document. *)
Example flash_messages_after_five_minutes :
  let w1 :=
    drain (tick 300000 (domContentLoaded main_js_flash (loaded 0 login_page)))
  in
  let w2 := drain (tick 500 w1) in
  log w1 = [Clicked 3] /\
  style (element (page w1) 4) = mkStyle "opacity 0.5s" "0" /\
  timers w1 = [mkTimer 300500 (RemoveMessage 4)] /\
  log w2 = [Clicked 3] /\
  tree_order (document (page w2)) = [0; 1; 2; 3; 5; 7; 6; 8] /\
  detached (page w2) = [Node 4 []] /\
  timers w2 = [].
Proof. vm_compute. repeat split. Qed.

(** ** Lookup *)

Section Find.
Variable P : handle -> bool.
Variable Q : handle -> Prop.
Hypothesis PQ : forall x, P x = true <-> Q x.

Lemma find_first_such l h : find P l = Some h <-> first_such Q l h.
Proof.
  split.
  - induction l as [|a l IH]; simpl; [discriminate|].
    destruct (P a) eqn:Pa.
    + intros [= ->]. exists [], l. repeat split; [now apply PQ | intros x []].
    + intros H. destruct (IH H) as (b & c & -> & Qh & Hb).
      exists (a :: b), c. repeat split; trivial.
      intros x [<- | Hx]; [|now apply Hb].
      intros Qa. apply PQ in Qa. congruence.
  - intros (b & c & -> & Qh & Hb). induction b as [|a b IH]; simpl.
    + apply PQ in Qh. now rewrite Qh.
    + destruct (P a) eqn:Pa.
      * exfalso. apply (Hb a); [now left | now apply PQ].
      * apply IH. intros x Hx. apply Hb. now right.
Qed.

Lemma find_none_such l : find P l = None <-> none_such Q l.
Proof.
  split.
  - intros H x Hx Qx. apply PQ in Qx.
    now rewrite (find_none _ _ H x Hx) in Qx.
  - intros H. induction l as [|a l IH]; simpl; trivial.
    destruct (P a) eqn:Pa.
    + exfalso. apply (H a); [now left | now apply PQ].
    + apply IH. intros x Hx. apply H. now right.
Qed.
End Find.

Lemma first_none_such Q l h : first_such Q l h -> none_such Q l -> False.
Proof.
  intros (b & c & -> & Qh & _) H. apply (H h); trivial.
  apply in_or_app. right. now left.
Qed.

Lemma first_such_unique Q l h h' :
  first_such Q l h -> first_such Q l h' -> h = h'.
Proof.
  intros (b & c & -> & Qh & Hb). revert h'.
  induction b as [|a b IH]; simpl; intros h' (b' & c' & E & Qh' & Hb').
  - destruct b' as [|a' b']; simpl in E; injection E as E1 E2; trivial.
    subst a'. exfalso. apply (Hb' h); trivial. now left.
  - destruct b' as [|a' b']; simpl in E; injection E as E1 E2.
    + subst a. exfalso. apply (Hb h'); trivial. now left.
    + apply IH.
      * intros x Hx. apply Hb. now right.
      * exists b', c'. repeat split; trivial.
        intros x Hx. apply Hb'. now right.
Qed.

Lemma attr_is_spec p name val h :
  attr_is p name val h = true <->
  getAttribute name (attributes (element p h)) = Some val.
Proof.
  unfold attr_is.
  destruct (getAttribute name (attributes (element p h))) as [v|].
  - rewrite String.eqb_eq. split; [now intros -> | now intros [= ->]].
  - split; discriminate.
Qed.

Lemma matches_input_with p attr val h :
  matches p (TagAttr "input" attr val) h = true <-> input_with p attr val h.
Proof.
  unfold input_with. simpl.
  rewrite andb_true_iff, String.eqb_eq, attr_is_spec. reflexivity.
Qed.

Lemma matches_has_class p cls h :
  matches p (Class cls) h = true <-> has_class p cls h.
Proof.
  unfold has_class. simpl. rewrite existsb_exists. split.
  - intros (x & Hx & E). apply String.eqb_eq in E. now subst.
  - intros H. exists cls. split; trivial. apply String.eqb_refl.
Qed.

(** The lookup of the source and the lookup rules of the specification
    agree. *)
Lemma findCodeInput_chosen p r : chosen p r <-> findCodeInput p = r.
Proof.
  unfold findCodeInput, getElementById, querySelector.
  set (order := tree_order (document p)).
  pose proof (find_first_such _ _ (attr_is_spec p "id" "code") order) as Fid.
  pose proof (find_none_such _ _ (attr_is_spec p "id" "code") order) as Nid.
  pose proof (find_first_such _ _ (matches_input_with p "pattern" "[0-9]{6}")
                order) as Fpat.
  pose proof (find_none_such _ _ (matches_input_with p "pattern" "[0-9]{6}")
                order) as Npat.
  pose proof (find_first_such _ _ (matches_input_with p "maxlength" "6")
                order) as Fmax.
  pose proof (find_none_such _ _ (matches_input_with p "maxlength" "6")
                order) as Nmax.
  fold (has_id p "code") in Fid, Nid.
  split.
  - intros C. inversion C as [h H | h H0 H | h H0 H1 H | H0 H1 H]; subst.
    + apply Fid in H. now rewrite H.
    + apply Nid in H0. apply Fpat in H. now rewrite H0, H.
    + apply Nid in H0. apply Npat in H1. apply Fmax in H.
      now rewrite H0, H1, H.
    + apply Nid in H0. apply Npat in H1. apply Nmax in H.
      now rewrite H0, H1, H.
  - intros <-.
    destruct (find (attr_is p "id" "code") order) as [h|] eqn:E0.
    { apply chosen_by_id. now apply Fid. }
    destruct (find (matches p (TagAttr "input" "pattern" "[0-9]{6}")) order)
      as [h|] eqn:E1.
    { apply chosen_by_pattern; [now apply Nid | now apply Fpat]. }
    destruct (find (matches p (TagAttr "input" "maxlength" "6")) order)
      as [h|] eqn:E2.
    { apply chosen_by_maxlength;
        [now apply Nid | now apply Npat | now apply Fmax]. }
    apply chosen_none; [now apply Nid | now apply Npat | now apply Nmax].
Qed.

(** C5. The lookup of the source returns exactly what the ordered rules
    of the specification choose: the first element with identifier
    [code]; failing that, the first [input] whose [pattern] is
    [[0-9]{6}]; failing that, the first [input] whose [maxlength] is [6];
    nothing otherwise.  In particular an element with identifier [code]
    wins over an input that matches the pattern, wherever the two stand
    in the document. *)
Theorem C5_lookup_is_ordered :
  forall p,
    (forall r, chosen p r <-> findCodeInput p = r) /\
    (forall h h',
        first_such (has_id p "code") (tree_order (document p)) h ->
        In h' (tree_order (document p)) ->
        input_with p "pattern" "[0-9]{6}" h' ->
        findCodeInput p = Some h).
Proof.
  intros p. split.
  - intros r. apply findCodeInput_chosen.
  - intros h h' H _ _. apply findCodeInput_chosen. now apply chosen_by_id.
Qed.

Lemma C5_witness :
  first_such (has_id login_page "code") (tree_order (document login_page)) 6
  /\ In 7 (tree_order (document login_page))
  /\ input_with login_page "pattern" "[0-9]{6}" 7
  /\ findCodeInput login_page = Some 6.
Proof.
  assert (H : first_such (has_id login_page "code")
                (tree_order (document login_page)) 6)
    by (apply (find_first_such _ _ (attr_is_spec login_page "id" "code"));
        reflexivity).
  assert (I : In 7 (tree_order (document login_page)))
    by (simpl; tauto).
  assert (J : input_with login_page "pattern" "[0-9]{6}" 7)
    by (split; reflexivity).
  split; [exact H|]. split; [exact I|]. split; [exact J|].
  exact (proj2 (C5_lookup_is_ordered login_page) 6 7 H I J).
Defined.

(** ** Counting *)

Lemma count_app {A} (P : A -> bool) l l' :
  count P (l ++ l') = count P l + count P l'.
Proof. unfold count. now rewrite filter_app, length_app. Qed.

Lemma count_cons {A} (P : A -> bool) a l :
  count P (a :: l) = (if P a then 1 else 0) + count P l.
Proof. unfold count. simpl. now destruct (P a). Qed.

Lemma count_nil {A} (P : A -> bool) : count P [] = 0.
Proof. reflexivity. Qed.

Lemma count_le_length {A} (P : A -> bool) l : count P l <= List.length l.
Proof. apply filter_length_le. Qed.

Lemma count_zero {A} (P : A -> bool) l :
  count P l = 0 <-> forall x, In x l -> P x = false.
Proof.
  induction l as [|a l IH]; [now split|].
  rewrite count_cons. split.
  - intros H x [<- | Hx].
    + destruct (P a); [discriminate | trivial].
    + apply IH; trivial. destruct (P a); [discriminate | trivial].
  - intros H. rewrite (H a) by now left.
    apply IH. intros x Hx. apply H. now right.
Qed.

Lemma callback_eqb_eq a b : callback_eqb a b = true <-> a = b.
Proof.
  destruct a, b; simpl; rewrite ?Nat.eqb_eq; split;
    try discriminate; congruence.
Qed.

Lemma timer_eqb_eq a b : timer_eqb a b = true <-> a = b.
Proof.
  unfold timer_eqb. rewrite andb_true_iff, N.eqb_eq, callback_eqb_eq.
  destruct a, b; simpl. split; [intros [-> ->] | intros [= -> ->]]; auto.
Qed.

Lemma timer_eqb_refl a : timer_eqb a a = true.
Proof. now apply timer_eqb_eq. Qed.

(** ** The timer queue *)

Lemma next_timer_some t ts tm rest :
  next_timer t ts = Some (tm, rest) ->
  is_due t tm = true /\
  forall (P : Timer -> bool), count P ts = count P (tm :: rest).
Proof.
  revert tm rest. induction ts as [|a ts IH]; simpl; [discriminate|].
  intros tm rest.
  destruct (next_timer t ts) as [[tm' r']|].
  - destruct (IH tm' r' eq_refl) as [D C].
    destruct (is_due t a && (due a <=? due tm')%N) eqn:E.
    + intros [= <- <-]. apply andb_true_iff in E. now split.
    + intros [= <- <-]. split; trivial.
      intros P. rewrite !count_cons, C, count_cons. lia.
  - destruct (is_due t a) eqn:E; [|discriminate].
    intros [= <- <-]. now split.
Qed.

Lemma next_timer_none t ts :
  next_timer t ts = None <-> count (is_due t) ts = 0.
Proof.
  induction ts as [|a ts IH]; simpl; [now split|].
  rewrite count_cons.
  destruct (next_timer t ts) as [[tm' r']|] eqn:N.
  - destruct (next_timer_some _ _ _ _ N) as [D C].
    specialize (C (is_due t)). rewrite count_cons, D in C.
    split; [|lia].
    now destruct (is_due t a && (due a <=? due tm')%N).
  - destruct (is_due t a); simpl.
    + split; intros H; [discriminate H | lia].
    + split; intros H; trivial. now apply IH.
Qed.

(** The timer that runs is the earliest of the due ones. *)
Lemma next_timer_earliest t ts tm rest :
  next_timer t ts = Some (tm, rest) ->
  forall x, In x ts -> is_due t x = true -> (due tm <= due x)%N.
Proof.
  revert tm rest. induction ts as [|a ts IH]; simpl; [discriminate|].
  intros tm rest.
  destruct (next_timer t ts) as [[tm' r']|] eqn:N.
  - specialize (IH tm' r' eq_refl).
    destruct (is_due t a && (due a <=? due tm')%N) eqn:E.
    + intros [= <- <-] x [<- | Hx] Dx; [lia|].
      apply andb_true_iff in E. destruct E as [_ E].
      apply N.leb_le in E. specialize (IH x Hx Dx). lia.
    + intros [= <- <-] x [<- | Hx] Dx; [|now apply IH].
      rewrite Dx in E. simpl in E. apply N.leb_gt in E. lia.
  - destruct (is_due t a) eqn:E; [|discriminate].
    intros [= <- <-] x [<- | Hx] Dx; [lia|].
    apply next_timer_none in N.
    rewrite (proj1 (count_zero _ _) N x Hx) in Dx. discriminate.
Qed.

(** ** What a timer task changes *)

Lemma reset_form_owner_keeps t h e :
  localName (reset_form_owner t h e) = localName e /\
  attributes (reset_form_owner t h e) = attributes e /\
  classList (reset_form_owner t h e) = classList e /\
  value (reset_form_owner t h e) = value e /\
  style (reset_form_owner t h e) = style e /\
  focusable (reset_form_owner t h e) = focusable e.
Proof.
  unfold reset_form_owner. destruct (form e) as [f|]; [|now repeat split].
  destruct (Bool.eqb (inside t h) (inside t f)); now repeat split.
Qed.

(** [el.remove()] changes nothing of an element but its form owner. *)
Lemma remove_keeps el p h :
  localName (element (remove el p) h) = localName (element p h) /\
  attributes (element (remove el p) h) = attributes (element p h) /\
  classList (element (remove el p) h) = classList (element p h) /\
  value (element (remove el p) h) = value (element p h) /\
  style (element (remove el p) h) = style (element p h) /\
  focusable (element (remove el p) h) = focusable (element p h).
Proof.
  unfold remove. destruct (find_subtree el (document p)); simpl.
  - apply reset_form_owner_keeps.
  - destruct (find_subtree el (flat_map childNodes (detached p))); simpl.
    + apply reset_form_owner_keeps.
    + now repeat split.
Qed.

Lemma run_callback_frame cb w : task_frame w (report (run_callback cb w) w).
Proof.
  destruct cb as [c | m | m]; simpl.
  - destruct (form (element (page w) c)); simpl;
      constructor; simpl; eauto.
  - destruct (element_querySelector (Class "btn-close") (page w) m); simpl;
      constructor; simpl; eauto.
  - constructor; simpl; eauto.
Qed.

Lemma fire_inv w w' :
  fire w = Some w' ->
  exists tm rest,
    next_timer (now w) (timers w) = Some (tm, rest) /\
    w' = report (run_callback (callback tm) (started tm (set_timers rest w)))
                (started tm (set_timers rest w)).
Proof.
  unfold fire. destruct (next_timer (now w) (timers w)) as [[tm rest]|];
    [|discriminate].
  intros [= <-]. now exists tm, rest.
Qed.

Lemma fire_none w : fire w = None <-> count (is_due (now w)) (timers w) = 0.
Proof.
  unfold fire. rewrite <- next_timer_none.
  destruct (next_timer (now w) (timers w)) as [[tm rest]|];
    split; congruence.
Qed.

Lemma not_due_later t d cb :
  (0 < d)%N -> is_due t (mkTimer (t + d) cb) = false.
Proof. intros H. unfold is_due. simpl. apply N.leb_gt. lia. Qed.

Lemma set_timers_same w : set_timers (timers w) w = w.
Proof. now destruct w. Qed.

(** A timer leaves the list of pending timers only by running: for any
    class [Q] of timers that the callbacks do not create, the number of
    pending and run timers of the class is the same after a task. *)
Lemma fire_accounting (Q : Timer -> bool) w w' :
  (forall d m, Q (mkTimer d (RemoveMessage m)) = false) ->
  fire w = Some w' ->
  count Q (timers w') + count Q (map snd (history w')) =
  count Q (timers w) + count Q (map snd (history w)).
Proof.
  intros HQ F. destruct (fire_inv _ _ F) as (tm & rest & N & ->).
  destruct (next_timer_some _ _ _ _ N) as [_ C]. rewrite (C Q).
  destruct (run_callback_frame (callback tm) (started tm (set_timers rest w)))
    as [_ _ Hh Ht _].
  rewrite Hh. simpl.
  destruct Ht as [-> | [m ->]]; simpl;
    rewrite ?map_app; simpl;
    rewrite ?count_app, ?count_cons, ?count_nil, ?HQ;
    destruct (Q tm); lia.
Qed.

(** For any class of timers, a task never makes pending and run timers
    together fewer. *)
Lemma fire_accounting_le (Q : Timer -> bool) w w' :
  fire w = Some w' ->
  count Q (timers w) + count Q (map snd (history w)) <=
  count Q (timers w') + count Q (map snd (history w')).
Proof.
  intros F. destruct (fire_inv _ _ F) as (tm & rest & N & ->).
  destruct (next_timer_some _ _ _ _ N) as [_ C]. rewrite (C Q).
  destruct (run_callback_frame (callback tm) (started tm (set_timers rest w)))
    as [_ _ Hh Ht _].
  rewrite Hh. simpl.
  destruct Ht as [-> | [m ->]]; simpl;
    rewrite ?map_app; simpl;
    rewrite ?count_app, ?count_cons, ?count_nil;
    destruct (Q tm); lia.
Qed.

(** A task takes one due timer away and adds none: the callbacks
    schedule 500 ms ahead. *)
Lemma fire_due w w' :
  fire w = Some w' ->
  now w' = now w /\
  S (count (is_due (now w')) (timers w')) = count (is_due (now w)) (timers w).
Proof.
  intros F. destruct (fire_inv _ _ F) as (tm & rest & N & ->).
  destruct (next_timer_some _ _ _ _ N) as [D C].
  rewrite (C (is_due (now w))), count_cons, D.
  destruct (run_callback_frame (callback tm) (started tm (set_timers rest w)))
    as [Hn _ _ Ht _].
  rewrite Hn. simpl. split; trivial.
  destruct Ht as [-> | [m ->]]; simpl; trivial.
  rewrite count_app, count_cons, count_nil, not_due_later by lia. lia.
Qed.

Lemma fire_all_complete n w :
  count (is_due (now w)) (timers w) <= n -> fire (fire_all n w) = None.
Proof.
  revert w. induction n as [|n IH]; intros w H; simpl.
  - apply fire_none. lia.
  - destruct (fire w) as [w'|] eqn:F; trivial.
    apply IH. destruct (fire_due _ _ F) as [_ E]. lia.
Qed.

(** [drain] has enough fuel: no timer is due when it returns. *)
Lemma drain_complete w : fire (drain w) = None.
Proof. apply fire_all_complete, count_le_length. Qed.

Lemma fire_all_now n w : now (fire_all n w) = now w.
Proof.
  revert w. induction n as [|n IH]; intros w; simpl; trivial.
  destruct (fire w) as [w'|] eqn:F; trivial.
  rewrite IH. now destruct (fire_due _ _ F).
Qed.

(** ** Events *)

Lemma emit_all_nil w : emit_all [] w = w.
Proof. unfold emit_all. rewrite app_nil_r. now destruct w. Qed.

Lemma dispatch_fold el rs w :
  fold_left (fun w r => report (run_listener (listener r) el w) w) rs w
  = heard el rs w.
Proof.
  unfold heard. revert w. induction rs as [|r rs IH]; intros w.
  - simpl. destruct (value (element (page w) el)) as [v|].
    + destruct (Nat.eqb _ 6); now rewrite app_nil_r, set_timers_same.
    + symmetry. apply emit_all_nil.
  - destruct r as [tg ty []]. cbn [fold_left listener run_listener].
    rewrite IH. clear IH.
    destruct (value (element (page w) el)) as [v|] eqn:V.
    + destruct (Nat.eqb (js_length v) 6) eqn:E; cbn [report].
      * cbn [page setTimeout set_timers]. rewrite V, E.
        unfold setTimeout, set_timers. simpl. now rewrite <- app_assoc.
      * now rewrite V, E.
    + cbn [report page emit]. rewrite V.
      unfold emit_all, emit. simpl. now rewrite <- app_assoc.
Qed.

(** An input event at a control only adds timers: one per listener that
    hears it when the value has six code units, none otherwise. *)
Lemma user_input_spec el v w :
  user_input el v w =
  set_timers
    (timers w ++
       if Nat.eqb (js_length v) 6
       then map (fun _ => mkTimer (now w + 500) (SubmitForm el))
                (hearing "input" el (page w) (listeners w))
       else [])
    (on_page (update_element el (set_value v)) w).
Proof.
  unfold user_input, dispatchEvent. rewrite dispatch_fold.
  unfold heard. simpl. now rewrite Nat.eqb_refl.
Qed.

(** An input event at an element without a value only adds exceptions:
    one per listener that hears it. *)
Lemma content_input_spec el w :
  content_input el w =
  emit_all (map (fun _ => Uncaught TypeError)
                (hearing "input" el (page w) (listeners w)))
           (on_page (update_element el no_value) w).
Proof.
  unfold content_input, dispatchEvent. rewrite dispatch_fold.
  unfold heard. simpl. now rewrite Nat.eqb_refl.
Qed.

(** Moving the focus changes the focused element only. *)
Lemma user_focus_frame tg w :
  exists a,
    user_focus tg w
    = mkWorld (now w) (page w) (timers w) (listeners w) a (log w) (history w).
Proof.
  destruct tg as [el|]; simpl; [|now eexists].
  unfold focus. destruct (focusable (element (page w) el)); [now eexists|].
  exists (activeElement w). now destruct w.
Qed.

Lemma hearing_nil type el p : hearing type el p [] = [].
Proof.
  unfold hearing. induction (event_path p el) as [|n l IH]; simpl; trivial.
Qed.

Lemma on_event_path p el : In el (event_path p el).
Proof. unfold event_path. apply nodup_In. now left. Qed.

(** A listener hears an event once, and only when the element it is
    registered on is on the path of the event. *)
Lemma hearing_one type el p r :
  hearing type el p [r]
  = if String.eqb (eventType r) type
       && existsb (Nat.eqb (target r)) (event_path p el)
    then [r] else [].
Proof.
  unfold hearing.
  assert (N : NoDup (event_path p el)) by apply NoDup_nodup.
  induction N as [|a l Ha N IH].
  - simpl. now rewrite andb_false_r.
  - cbn [flat_map]. rewrite IH. cbn [filter existsb]. unfold listens.
    destruct (String.eqb (eventType r) type); simpl;
      rewrite ?andb_false_r; trivial.
    destruct (Nat.eqb (target r) a) eqn:E; simpl; trivial.
    apply Nat.eqb_eq in E. subst a.
    replace (existsb (Nat.eqb (target r)) l) with false; trivial.
    symmetry. apply not_true_is_false. intros H.
    apply existsb_exists in H. destruct H as (x & Hx & Ex).
    apply Nat.eqb_eq in Ex. now subst x.
Qed.

Lemma schedule_fold (f : handle -> Callback) d ms w :
  fold_left (fun w m => setTimeout (f m) d w) ms w
  = set_timers (timers w ++ map (fun m => mkTimer (now w + d) (f m)) ms) w.
Proof.
  revert w. induction ms as [|m ms IH]; intros w; simpl.
  - now rewrite app_nil_r, set_timers_same.
  - rewrite IH. unfold setTimeout, set_timers. simpl.
    now rewrite <- app_assoc.
Qed.

Lemma step_listeners a w : listeners (step a w) = listeners w.
Proof.
  destruct a as [dt | | el v | el | tg | f]; simpl; trivial.
  - destruct (fire w) as [w'|] eqn:F; trivial.
    destruct (fire_inv _ _ F) as (tm & rest & _ & ->).
    now rewrite (frame_listeners _ _ (run_callback_frame _ _)).
  - now rewrite user_input_spec.
  - now rewrite content_input_spec.
  - now destruct (user_focus_frame tg w) as [? ->].
Qed.

Lemma run_snoc acts a w : run (acts ++ [a]) w = step a (run acts w).
Proof. unfold run. now rewrite fold_left_app. Qed.

Lemma run_listeners acts w : listeners (run acts w) = listeners w.
Proof.
  induction acts as [|a acts IH] using rev_ind; trivial.
  now rewrite run_snoc, step_listeners.
Qed.

Lemma run_cons a acts w : run (a :: acts) w = run acts (step a w).
Proof. reflexivity. Qed.

Lemma step_fire w :
  step Fire w = match fire w with Some w' => w' | None => w end.
Proof. reflexivity. Qed.

Lemma fire_idle n w : fire w = None -> run (repeat Fire n) w = w.
Proof.
  intros H. induction n as [|n IH]; trivial.
  change (repeat Fire (S n)) with (Fire :: repeat Fire n).
  now rewrite run_cons, step_fire, H.
Qed.

(** [drain] is a sequence of timer tasks. *)
Lemma fire_all_run n w : fire_all n w = run (repeat Fire n) w.
Proof.
  revert w. induction n as [|n IH]; intros w; trivial.
  change (repeat Fire (S n)) with (Fire :: repeat Fire n).
  rewrite run_cons, step_fire. simpl.
  destruct (fire w) as [w'|] eqn:F; [apply IH|].
  symmetry. now apply fire_idle.
Qed.

Lemma run_app acts acts' w : run (acts ++ acts') w = run acts' (run acts w).
Proof. unfold run. apply fold_left_app. Qed.

(** After [drain] a timer that is due is not pending any more. *)
Lemma drain_not_pending tm w :
  (due tm <= now w)%N -> count (timer_eqb tm) (timers (drain w)) = 0.
Proof.
  intros D. apply count_zero. intros x Hx.
  destruct (timer_eqb tm x) eqn:E; trivial.
  apply timer_eqb_eq in E. subst x.
  pose proof (drain_complete w) as F. apply fire_none in F.
  pose proof (proj1 (count_zero _ _) F tm Hx) as N.
  unfold drain in N at 1. rewrite fire_all_now in N.
  unfold is_due in N. apply N.leb_gt in N. lia.
Qed.

(** ** Never cancelled *)

Lemma step_accounting_le (Q : Timer -> bool) a w :
  count Q (timers w) + count Q (map snd (history w)) <=
  count Q (timers (step a w)) + count Q (map snd (history (step a w))).
Proof.
  destruct a as [dt | | el v | el | tg | f]; simpl; trivial.
  - destruct (fire w) as [w'|] eqn:F; trivial. now apply fire_accounting_le.
  - rewrite user_input_spec. simpl. rewrite count_app. lia.
  - now rewrite content_input_spec.
  - now destruct (user_focus_frame tg w) as [? ->].
Qed.

Lemma run_accounting_le (Q : Timer -> bool) acts w :
  count Q (timers w) + count Q (map snd (history w)) <=
  count Q (timers (run acts w)) + count Q (map snd (history (run acts w))).
Proof.
  induction acts as [|a acts IH] using rev_ind; trivial.
  rewrite run_snoc. pose proof (step_accounting_le Q a (run acts w)). lia.
Qed.

(** Whatever happens after a timer was created, once its deadline has
    passed and the loop has run the due timers, it has run. *)
Lemma timer_runs tm acts w :
  (due tm <= now (run acts w))%N ->
  pending_timer tm (drain (run acts w)) = 0 /\
  pending_timer tm w + ran_timer tm w <= ran_timer tm (drain (run acts w)).
Proof.
  intros D. split; [now apply drain_not_pending|].
  pose proof (drain_not_pending tm _ D) as Z.
  pose proof (run_accounting_le (timer_eqb tm) acts w) as A.
  pose proof (run_accounting_le (timer_eqb tm)
                (repeat Fire (List.length (timers (run acts w))))
                (run acts w)) as B.
  rewrite <- fire_all_run in B. fold (drain (run acts w)) in B.
  unfold pending_timer, ran_timer. lia.
Qed.

(** ** The state after the page-ready signal *)

Lemma ready_focus t p :
  report (run_handler AutoFocus (loaded t p)) (loaded t p)
  = mkWorld t p [] [] (focused p) [] [].
Proof.
  unfold focused. cbn -[findCodeInput focus].
  destruct (findCodeInput p) as [c|]; trivial.
  unfold focus. cbn. now destruct (focusable (element p c)).
Qed.

Lemma ready_main_js t p :
  domContentLoaded main_js (loaded t p) =
  mkWorld t p [] (registrations p) (focused p) [] [].
Proof.
  unfold domContentLoaded, main_js. cbn [fold_left]. rewrite ready_focus.
  unfold registrations. cbn -[findCodeInput focused].
  now destruct (findCodeInput p).
Qed.

Lemma ready_main_js_flash t p :
  domContentLoaded main_js_flash (loaded t p) =
  mkWorld t p
          (map (dismiss_timer t) (querySelectorAll (Class "alert-error") p))
          (registrations p) (focused p) [] [].
Proof.
  unfold domContentLoaded, main_js_flash. cbn [fold_left].
  rewrite ready_focus. unfold registrations.
  cbn -[findCodeInput focused querySelectorAll N.mul].
  destruct (findCodeInput p);
    cbn -[findCodeInput focused querySelectorAll N.mul];
    now rewrite schedule_fold.
Qed.

Lemma ready_focus_only s t p :
  In s focus_only ->
  domContentLoaded s (loaded t p) =
  mkWorld t p [] [] (focused p) [] [].
Proof.
  intros [<- | [<- | []]]; unfold domContentLoaded; cbn [fold_left];
    apply ready_focus.
Qed.

Lemma ready_listeners s t p :
  In s with_auto_submit ->
  listeners (domContentLoaded s (loaded t p)) = registrations p.
Proof.
  intros [<- | [<- | []]];
    [now rewrite ready_main_js | now rewrite ready_main_js_flash].
Qed.

(** The listener of the code input hears the events dispatched at it. *)
Lemma hearing_code_input c p :
  hearing "input" c p [auto_submit_on c] = [auto_submit_on c].
Proof.
  rewrite hearing_one. simpl.
  replace (existsb (Nat.eqb c) (event_path p c)) with true; trivial.
  symmetry. apply existsb_exists. exists c.
  split; [apply on_event_path | apply Nat.eqb_refl].
Qed.

(** After page-ready the code input has exactly one listener, whatever
    happens next. *)
Lemma reachable_listeners s t p c acts :
  In s with_auto_submit -> findCodeInput p = Some c ->
  listeners (run acts (domContentLoaded s (loaded t p))) = [auto_submit_on c].
Proof.
  intros Hs Hc. rewrite run_listeners, ready_listeners by trivial.
  unfold registrations. now rewrite Hc.
Qed.

(** ** Timers run when due *)

Lemma next_timer_in t ts tm rest :
  next_timer t ts = Some (tm, rest) ->
  In tm ts /\ forall x, In x rest -> In x ts.
Proof.
  revert tm rest. induction ts as [|a ts IH]; simpl; [discriminate|].
  intros tm rest.
  destruct (next_timer t ts) as [[tm' r']|].
  - destruct (IH tm' r' eq_refl) as [I S].
    destruct (is_due t a && (due a <=? due tm')%N);
      intros [= <- <-]; split; auto.
    intros x [<- | Hx]; auto.
  - destruct (is_due t a); [|discriminate].
    intros [= <- <-]. auto.
Qed.

Lemma timing_step t a w : timing t w -> timing t (step a w).
Proof.
  intros [R P H]. destruct a as [dt | | el v | el | tg | f]; simpl.
  - now constructor.
  - destruct (fire w) as [w'|] eqn:F; [|now constructor].
    destruct (fire_inv _ _ F) as (tm & rest & N & ->).
    destruct (next_timer_some _ _ _ _ N) as [D _].
    destruct (next_timer_in _ _ _ _ N) as [I S].
    destruct (run_callback_frame (callback tm)
                (started tm (set_timers rest w))) as [_ _ Hh Ht _].
    constructor; rewrite ?Hh; simpl.
    + intros at_ x Hx. apply in_app_iff in Hx.
      destruct Hx as [Hx | [[= <- <-] | []]]; [now apply R|].
      now apply N.leb_le.
    + intros x m Hx Hc.
      destruct Ht as [Ht | [m' Ht]]; rewrite Ht in Hx; simpl in Hx.
      * apply (P x m); auto.
      * apply in_app_iff in Hx. destruct Hx as [Hx | [<- | []]].
        -- apply (P x m); auto.
        -- discriminate.
    + intros at_ x m Hx Hc. apply in_app_iff in Hx.
      destruct Hx as [Hx | [[= <- <-] | []]]; [now apply (H at_ x m)|].
      now apply (P tm m).
  - rewrite user_input_spec. constructor; simpl; trivial.
    intros x m Hx Hc. apply in_app_iff in Hx.
    destruct Hx as [Hx | Hx]; [now apply (P x m)|].
    destruct (Nat.eqb (js_length v) 6); [|destruct Hx].
    apply in_map_iff in Hx. destruct Hx as (r & <- & _). discriminate.
  - rewrite content_input_spec. now constructor.
  - destruct (user_focus_frame tg w) as [? ->]. now constructor.
  - now constructor.
Qed.

Lemma timing_run t acts w : timing t w -> timing t (run acts w).
Proof.
  intros H. induction acts as [|a acts IH] using rev_ind; trivial.
  rewrite run_snoc. now apply timing_step.
Qed.

Lemma timing_ready s t p :
  In s revisions -> timing t (domContentLoaded s (loaded t p)).
Proof.
  intros [<- | [<- | H]].
  - rewrite ready_main_js. constructor; simpl; tauto.
  - rewrite ready_main_js_flash. constructor; simpl; try tauto.
    intros tm m H _. apply in_map_iff in H. now destruct H as (x & <- & _).
  - rewrite ready_focus_only by trivial. constructor; simpl; tauto.
Qed.

(** ** Auto-submit *)

(** C1. For the code input found by the lookup, in every state reached
    after page-ready under main.js (or its flash revision): an input event
    whose value has length 6 appends one timer, due 500 ms later, whose
    callback submits the owning form, and runs nothing yet; an input event
    of any other length leaves the timers as they are.  Whatever happens
    afterwards, that timer does not run before its 500 ms are over.  When
    nothing else is pending, the loop has nothing to run before the 500 ms are over;
    from then on it runs the timer once: the form is submitted, and no
    timer is left. *)
Theorem C1_six_characters_schedule_one_submit :
  forall s t p c acts v,
    In s with_auto_submit ->
    findCodeInput p = Some c ->
    let w := run acts (domContentLoaded s (loaded t p)) in
    let w' := user_input c v w in
    (js_length v = 6 -> timers w' = timers w ++ [submit_timer (now w) c]) /\
    (js_length v <> 6 -> timers w' = timers w) /\
    log w' = log w /\ history w' = history w /\
    (forall w1 f, form (element (page w1) c) = Some f ->
                  run_callback (SubmitForm c) w1
                  = Normal (submit f w1)) /\
    (forall later at_,
        In (at_, submit_timer (now w) c) (history (run later w')) ->
        (now w + 500 <= at_)%N) /\
    (js_length v = 6 -> timers w = [] ->
     forall f dt, form (element (page w) c) = Some f ->
       ((dt < 500)%N -> fire (tick dt w') = None) /\
       ((500 <= dt)%N ->
        exists w2, fire (tick dt w') = Some w2 /\
                   log w2 = log w ++ [Submitted f] /\
                   timers w2 = [] /\ fire w2 = None)).
Proof.
  intros s t p c acts v Hs Hc w w'.
  assert (L : listeners w = [auto_submit_on c])
    by now apply reachable_listeners.
  assert (E : w' = set_timers
                     (timers w ++ if Nat.eqb (js_length v) 6
                                  then [submit_timer (now w) c] else [])
                     (on_page (update_element c (set_value v)) w)).
  { unfold w'. now rewrite user_input_spec, L, hearing_code_input. }
  split; [|split; [|split; [|split; [|split; [|split]]]]].
  - intros H. rewrite E. simpl. now rewrite H.
  - intros H. rewrite E. simpl. apply Nat.eqb_neq in H. rewrite H.
    apply app_nil_r.
  - now rewrite E.
  - now rewrite E.
  - intros w1 f H. simpl. now rewrite H.
  - intros later at_ H.
    assert (T : timing t (run later w')).
    { apply timing_run. apply (timing_step t (UserInput c v)).
      apply timing_run, timing_ready, in_or_app. now left. }
    apply (ran_when_due _ _ T) in H. exact H.
  - intros Hv Ht f dt Hf.
    assert (F : fire (tick dt w')
                = if (now w + 500 <=? now w + dt)%N
                  then Some (submit f (started (submit_timer (now w) c)
                                         (set_timers [] (tick dt w'))))
                  else None).
    { unfold fire. rewrite E. simpl. rewrite Hv, Ht. simpl.
      unfold is_due. simpl.
      destruct (now w + 500 <=? now w + dt)%N; trivial.
      simpl. rewrite Nat.eqb_refl. simpl. now rewrite Hf. }
    split; intros Hd; rewrite F.
    + destruct (now w + 500 <=? now w + dt)%N eqn:D; trivial.
      apply N.leb_le in D. lia.
    + destruct (now w + 500 <=? now w + dt)%N eqn:D.
      * eexists. split; [reflexivity|]. rewrite E. simpl. auto.
      * apply N.leb_gt in D. lia.
Qed.

Lemma C1_witness :
  In main_js with_auto_submit /\
  findCodeInput login_page = Some 6 /\
  timers (user_input 6 (utf16 "123456")
            (run [] (domContentLoaded main_js (loaded 0 login_page))))
  = [submit_timer 0 6].
Proof.
  split; [now left|]. split; [reflexivity|].
  exact (proj1 (C1_six_characters_schedule_one_submit
                  main_js 0%N login_page 6 [] (utf16 "123456")
                  (or_introl eq_refl) eq_refl) eq_refl).
Defined.

(** No action cancels a timer: for a class [Q] of timers that callbacks
    do not create, pending and run timers together grow by the timers the
    action creates. *)
Lemma step_accounting (Q : Timer -> bool) a w :
  (forall d m, Q (mkTimer d (RemoveMessage m)) = false) ->
  count Q (timers (step a w)) + count Q (map snd (history (step a w))) =
  count Q (timers w) + count Q (map snd (history w)) + count Q (created a w).
Proof.
  intros HQ. destruct a as [dt | | el v | el | tg | f]; simpl;
    rewrite ?count_nil, ?Nat.add_0_r; trivial.
  - destruct (fire w) as [w'|] eqn:F; trivial. now apply fire_accounting.
  - rewrite user_input_spec. simpl. rewrite count_app.
    unfold submit_timer. lia.
  - now rewrite content_input_spec.
  - now destruct (user_focus_frame tg w) as [? ->].
Qed.

Lemma created_on_code_input c a w :
  listeners w = [auto_submit_on c] ->
  count (calls (SubmitForm c)) (created a w)
  = if completes c a then 1 else 0.
Proof.
  intros L. destruct a as [dt | | el v | el | tg | f]; simpl; trivial.
  rewrite L. unfold auto_submit_on. rewrite hearing_one. simpl.
  destruct (Nat.eqb el c) eqn:E; simpl.
  - apply Nat.eqb_eq in E. subst el.
    replace (existsb (Nat.eqb c) (event_path (page w) c)) with true.
    + destruct (Nat.eqb (js_length v) 6); trivial.
      unfold calls. cbn. now rewrite Nat.eqb_refl.
    + symmetry. apply existsb_exists. exists c.
      split; [apply on_event_path | apply Nat.eqb_refl].
  - replace (count (calls (SubmitForm c))
               (if Nat.eqb (js_length v) 6
                then map (fun _ => submit_timer (now w) el)
                       (if existsb (Nat.eqb c) (event_path (page w) el)
                        then [mkRegistration c "input" SubmitWhenComplete]
                        else [])
                else [])) with 0; trivial.
    symmetry. apply count_zero. intros x Hx.
    destruct (Nat.eqb (js_length v) 6); [|destruct Hx].
    apply in_map_iff in Hx. destruct Hx as (r & <- & _).
    unfold calls. simpl. now rewrite E.
Qed.

Lemma calls_not_remove cb d m :
  (forall x, cb <> RemoveMessage x) ->
  calls cb (mkTimer d (RemoveMessage m)) = false.
Proof.
  intros H. unfold calls. simpl. destruct cb; simpl; trivial.
  destruct (Nat.eqb m message) eqn:E; trivial.
  apply Nat.eqb_eq in E. subst. now destruct (H message).
Qed.

(** C3, as the code has it.  Under main.js (or its flash revision), in
    every state reached after page-ready, the submit timers of the code
    input that are pending, together with those that have run, are as
    many as the input events with a six-character value so far: every
    such event adds one timer and nothing but its own run takes a timer
    away, so the number pending is not bounded by one. *)
Theorem C3_one_timer_per_complete_input :
  forall s t p c acts,
    In s with_auto_submit ->
    findCodeInput p = Some c ->
    let w := run acts (domContentLoaded s (loaded t p)) in
    pending (SubmitForm c) w + ran (SubmitForm c) w
    = count (completes c) acts.
Proof.
  intros s t p c acts Hs Hc. cbv zeta. unfold pending, ran.
  induction acts as [|a acts IH] using rev_ind.
  - simpl. destruct Hs as [<- | [<- | []]].
    + now rewrite ready_main_js.
    + rewrite ready_main_js_flash. simpl.
      rewrite count_nil, Nat.add_0_r. apply count_zero.
      intros x Hx. apply in_map_iff in Hx. now destruct Hx as (m & <- & _).
  - rewrite run_snoc, step_accounting, IH, count_app, count_cons, count_nil
      by (intros; now apply calls_not_remove).
    rewrite created_on_code_input by now apply reachable_listeners.
    lia.
Qed.

Lemma C3_witness :
  In main_js with_auto_submit /\
  findCodeInput login_page = Some 6 /\
  pending (SubmitForm 6)
    (run [UserInput 6 (utf16 "123456"); UserInput 6 (utf16 "12345");
          UserInput 6 (utf16 "123457")]
       (domContentLoaded main_js (loaded 0 login_page))) = 2.
Proof.
  split; [now left|]. split; [reflexivity|].
  exact (C3_one_timer_per_complete_input
           main_js 0%N login_page 6
           [UserInput 6 (utf16 "123456"); UserInput 6 (utf16 "12345");
            UserInput 6 (utf16 "123457")]
           (or_introl eq_refl) eq_refl).
Defined.

(** C3, as the specification words it, fails: two complete values typed
    100 ms apart leave two submit timers pending for the same field. *)
Lemma C3_two_timers_pending :
  ~ pending (SubmitForm 6)
      (run [UserInput 6 (utf16 "123456"); Tick 100;
            UserInput 6 (utf16 "123457")]
         (domContentLoaded main_js (loaded 0 login_page))) <= 1.
Proof. vm_compute. lia. Qed.

(** C4. Under main.js (or its flash revision), once an input event with
    a six-character value has scheduled its submit, nothing that happens
    later cancels it: no input event takes a timer out of the pending
    list, after any further actions the timer is still pending or has
    run, and once its 500 ms are over and the loop has run the due
    timers, it has run; running it submits the owning form. *)
Theorem C4_later_input_never_cancels :
  forall s t p c acts v later,
    In s with_auto_submit ->
    findCodeInput p = Some c ->
    js_length v = 6 ->
    let w := run acts (domContentLoaded s (loaded t p)) in
    let tm := submit_timer (now w) c in
    let w1 := user_input c v w in
    let w2 := run later w1 in
    pending_timer tm w1 = S (pending_timer tm w) /\
    (forall el v' x, In x (timers w2) -> In x (timers (user_input el v' w2))) /\
    pending_timer tm w2 + ran_timer tm w2
      >= S (pending_timer tm w + ran_timer tm w) /\
    ((due tm <= now w2)%N ->
     pending_timer tm (drain w2) = 0 /\
     ran_timer tm (drain w2) >= S (ran_timer tm w)) /\
    (forall w3 f, form (element (page w3) c) = Some f ->
                  run_callback (callback tm) w3
                  = Normal (submit f w3)).
Proof.
  intros s t p c acts v later Hs Hc Hv w tm w1 w2.
  assert (L : listeners w = [auto_submit_on c])
    by now apply reachable_listeners.
  assert (E1 : pending_timer tm w1 = S (pending_timer tm w)).
  { unfold pending_timer, w1.
    rewrite user_input_spec, L, hearing_code_input. simpl.
    rewrite Hv. simpl.
    rewrite count_app, count_cons, count_nil.
    fold (submit_timer (now w) c). fold tm. rewrite timer_eqb_refl. lia. }
  assert (E2 : ran_timer tm w1 = ran_timer tm w).
  { unfold ran_timer, w1. now rewrite user_input_spec. }
  split; [exact E1|]. split; [|split; [|split]].
  - intros el v' x Hx. rewrite user_input_spec. simpl.
    apply in_or_app. now left.
  - pose proof (run_accounting_le (timer_eqb tm) later w1) as A.
    unfold pending_timer, ran_timer in *. fold w2 in A. lia.
  - intros D. destruct (timer_runs tm later w1 D) as [Z R].
    fold w2 in Z, R. split; [exact Z | lia].
  - intros w3 f H. simpl. now rewrite H.
Qed.

Lemma C4_witness :
  In main_js with_auto_submit /\
  findCodeInput login_page = Some 6 /\
  js_length (utf16 "123456") = 6 /\
  ran_timer (submit_timer 0 6)
    (drain (run [Tick 200; UserInput 6 (utf16 "12345"); Tick 300]
              (user_input 6 (utf16 "123456")
                 (run [] (domContentLoaded main_js (loaded 0 login_page))))))
  >= 1.
Proof.
  split; [now left|]. split; [reflexivity|]. split; [reflexivity|].
  pose proof (C4_later_input_never_cancels
                main_js 0%N login_page 6 [] (utf16 "123456")
                [Tick 200; UserInput 6 (utf16 "12345"); Tick 300]
                (or_introl eq_refl) eq_refl eq_refl) as H.
  destruct H as (_ & _ & _ & H & _).
  destruct H as [_ H]; [vm_compute; discriminate|].
  exact H.
Defined.

(** C9. Under main.js (or its flash revision), in every state reached
    after page-ready, what an input event on the code input schedules
    depends on the length of the value alone: two values of the same
    length leave the same timers, and a value of length 6 gets its submit
    timer whether or not all of its characters are digits. *)
Theorem C9_only_the_length_matters :
  forall s t p c acts v v',
    In s with_auto_submit ->
    findCodeInput p = Some c ->
    let w := run acts (domContentLoaded s (loaded t p)) in
    (js_length v = js_length v' ->
     timers (user_input c v w) = timers (user_input c v' w)) /\
    (js_length v = 6 ->
     forallb is_digit v = false ->
     timers (user_input c v w) = timers w ++ [submit_timer (now w) c]).
Proof.
  intros s t p c acts v v' Hs Hc w.
  assert (L : listeners w = [auto_submit_on c])
    by now apply reachable_listeners.
  split.
  - intros E. rewrite !user_input_spec. simpl. now rewrite E.
  - intros E _. rewrite user_input_spec, L, hearing_code_input. simpl.
    now rewrite E.
Qed.

Lemma C9_witness :
  In main_js with_auto_submit /\
  findCodeInput login_page = Some 6 /\
  js_length (utf16 "12ab5!") = 6 /\
  forallb is_digit (utf16 "12ab5!") = false /\
  timers (user_input 6 (utf16 "12ab5!")
            (run [] (domContentLoaded main_js (loaded 0 login_page))))
  = [submit_timer 0 6].
Proof.
  split; [now left|]. split; [reflexivity|]. split; [reflexivity|].
  split; [reflexivity|].
  exact (proj2 (C9_only_the_length_matters
                  main_js 0%N login_page 6 [] (utf16 "12ab5!") []
                  (or_introl eq_refl) eq_refl) eq_refl eq_refl).
Defined.

(** Without a form owner the submit callback throws. *)
Lemma submit_without_form c w :
  form (element (page w) c) = None ->
  run_callback (SubmitForm c) w = Throw TypeError.
Proof. intros H. simpl. now rewrite H. Qed.

(** C2. The code does not tolerate a missing form.  On a page whose code
    input has no form owner, under main.js, a six-character value followed
    by 500 ms ends in an uncaught [TypeError] when the timer runs: no form
    is submitted, and an exception is raised. *)
Theorem C2_missing_form_throws :
  let w0 := domContentLoaded main_js (loaded 0 formless_page) in
  findCodeInput formless_page = Some 2 /\
  form (element formless_page 2) = None /\
  fire (tick 500 (user_input 2 (utf16 "123456") w0))
  = Some (mkWorld 500
            (update_element 2 (set_value (utf16 "123456")) formless_page)
            [] [auto_submit_on 2] (Some 2)
            [Uncaught TypeError] [(500%N, submit_timer 0 2)]) /\
  log (run [UserInput 2 (utf16 "123456"); Tick 500; Fire] w0)
  = [Uncaught TypeError].
Proof. repeat split. Qed.

(** ** Pages without a code input *)

(** C6. On a page where no element matches any of the three lookup
    rules, the two code-entry handlers return normally and change nothing:
    nothing is focused, no listener is attached, no timer is scheduled, no
    exception is raised.  Page-ready as a whole leaves the state as it was
    under main.js and the two focus-only revisions; under the flash
    revision it does what the flash handler alone does, which touches
    neither the focus nor the listeners nor the log and schedules no
    submit. *)
Theorem C6_nothing_without_code_input :
  forall w,
    chosen (page w) None ->
    run_handler AutoFocus w = Normal w /\
    run_handler AutoSubmit w = Normal w /\
    domContentLoaded main_js w = w /\
    domContentLoaded main_js_focus_only w = w /\
    domContentLoaded main_js_documented w = w /\
    let w' := domContentLoaded main_js_flash w in
    w' = report (run_handler FlashDismiss w) w /\
    activeElement w' = activeElement w /\
    listeners w' = listeners w /\
    log w' = log w /\
    forall c, pending (SubmitForm c) w' = pending (SubmitForm c) w.
Proof.
  intros w H. apply findCodeInput_chosen in H.
  assert (F : run_handler AutoFocus w = Normal w)
    by (cbn -[findCodeInput]; now rewrite H).
  assert (S : run_handler AutoSubmit w = Normal w)
    by (cbn -[findCodeInput]; now rewrite H).
  assert (D : forall s, domContentLoaded (AutoFocus :: s) w
                        = domContentLoaded s w)
    by (intros s; unfold domContentLoaded; cbn [fold_left]; now rewrite F).
  assert (D' : forall s, domContentLoaded (AutoSubmit :: s) w
                         = domContentLoaded s w)
    by (intros s; unfold domContentLoaded; cbn [fold_left]; now rewrite S).
  repeat split; trivial.
  - unfold main_js. now rewrite D, D'.
  - unfold main_js_focus_only. now rewrite D.
  - unfold main_js_documented. now rewrite D.
  - unfold main_js_flash. now rewrite D, D'.
  - unfold main_js_flash. rewrite D, D'. unfold domContentLoaded.
    cbn -[querySelectorAll N.mul]. now rewrite schedule_fold.
  - unfold main_js_flash. rewrite D, D'. unfold domContentLoaded.
    cbn -[querySelectorAll N.mul]. now rewrite schedule_fold.
  - unfold main_js_flash. rewrite D, D'. unfold domContentLoaded.
    cbn -[querySelectorAll N.mul]. now rewrite schedule_fold.
  - intros c. unfold main_js_flash. rewrite D, D'. unfold domContentLoaded.
    cbn -[querySelectorAll N.mul]. rewrite schedule_fold.
    unfold pending. simpl. rewrite count_app.
    replace (count (calls (SubmitForm c)) (map _ _)) with 0; [lia|].
    symmetry. apply count_zero. intros x Hx.
    apply in_map_iff in Hx. now destruct Hx as (m & <- & _).
Qed.

Lemma C6_witness :
  chosen bare_page None /\
  domContentLoaded main_js (loaded 0 bare_page) = loaded 0 bare_page.
Proof.
  assert (H : chosen (page (loaded 0 bare_page)) None)
    by (apply findCodeInput_chosen; reflexivity).
  split; [exact H|].
  exact (proj1 (proj2 (proj2 (C6_nothing_without_code_input _ H)))).
Defined.

(** ** Focus *)

Lemma focus_page el w : page (focus el w) = page w.
Proof. unfold focus. now destruct (focusable (element (page w) el)). Qed.

Lemma focus_twice el w : focus el (focus el w) = focus el w.
Proof.
  unfold focus at 1. rewrite focus_page. unfold focus.
  now destruct (focusable (element (page w) el)).
Qed.

(** C8, as the code has it.  On the page-ready signal every revision of
    the script calls [focus()] on the element chosen by the lookup rules
    (by [chosen_by_id], the first element with identifier [code] when
    there is one).  When that element can take the focus it is the active
    element afterwards; when it cannot (a disabled or hidden input, an
    element that is no focusable area) the call does nothing and the
    active element stays what it was, the body on a fresh page.  Nothing
    else changes, and focusing again changes nothing: [focus] is
    idempotent, and so is the handler. *)
Theorem C8_code_input_gets_focus :
  forall s t p c,
    In s revisions ->
    chosen p (Some c) ->
    let w0 := domContentLoaded s (loaded t p) in
    (focusable (element p c) = true -> activeElement w0 = Some c) /\
    (focusable (element p c) = false -> activeElement w0 = None) /\
    (forall w, page w = p ->
       let w' := report (run_handler AutoFocus w) w in
       activeElement w'
       = (if focusable (element p c) then Some c else activeElement w) /\
       page w' = page w /\ timers w' = timers w /\
       listeners w' = listeners w /\ log w' = log w) /\
    (forall w, focus c (focus c w) = focus c w) /\
    (forall w, page w = p ->
       let once := report (run_handler AutoFocus w) w in
       report (run_handler AutoFocus once) once = once).
Proof.
  intros s t p c Hs H w0. apply findCodeInput_chosen in H.
  assert (A : forall w, page w = p ->
                        report (run_handler AutoFocus w) w = focus c w)
    by (intros w <-; cbn -[findCodeInput focus]; now rewrite H).
  assert (F : activeElement w0 = focused p).
  { unfold w0. destruct Hs as [<- | [<- | Hs]].
    - now rewrite ready_main_js.
    - now rewrite ready_main_js_flash.
    - now rewrite ready_focus_only. }
  unfold focused in F. rewrite H in F.
  split; [|split; [|split; [|split]]].
  - intros E. now rewrite F, E.
  - intros E. now rewrite F, E.
  - intros w Hp. cbv zeta. rewrite (A w Hp). unfold focus. rewrite Hp.
    now destruct (focusable (element p c)).
  - intros w. apply focus_twice.
  - intros w Hp. cbv zeta. rewrite (A w Hp).
    rewrite (A (focus c w)) by now rewrite focus_page.
    apply focus_twice.
Qed.

Lemma C8_witness :
  In main_js_documented revisions /\
  chosen login_page (Some 6) /\
  focusable (element login_page 6) = true /\
  activeElement (domContentLoaded main_js_documented (loaded 0 login_page))
  = Some 6.
Proof.
  assert (H : chosen login_page (Some 6))
    by (apply findCodeInput_chosen; reflexivity).
  split; [right; right; right; now left|]. split; [exact H|].
  split; [reflexivity|].
  exact (proj1 (C8_code_input_gets_focus
                  main_js_documented 0%N login_page 6
                  (or_intror (or_intror (or_intror (or_introl eq_refl))))
                  H) eq_refl).
Defined.

(** C8, as the specification words it, fails: on a page whose input with
    identifier [code] is disabled, the lookup chooses that input and
    page-ready calls [focus()] on it, but the input does not receive the
    focus: the active element is still the body. *)
Lemma C8_disabled_input_is_not_focused :
  chosen disabled_page (Some 3) /\
  has_id disabled_page "code" 3 /\
  localName (element disabled_page 3) = "input" /\
  activeElement (domContentLoaded main_js (loaded 0 disabled_page))
  <> Some 3.
Proof.
  split; [apply findCodeInput_chosen; reflexivity|].
  split; [reflexivity|]. split; [reflexivity|].
  vm_compute. discriminate.
Qed.

(** ** The revisions without auto-submit *)

Lemma idle_step a w :
  listeners w = [] -> timers w = [] ->
  timers (step a w) = [] /\ log (step a w) = log w /\
  history (step a w) = history w.
Proof.
  intros L T. destruct a as [dt | | el v | el | tg | f]; simpl; auto.
  - unfold fire. rewrite T. simpl. auto.
  - rewrite user_input_spec, L, T, hearing_nil. simpl.
    destruct (Nat.eqb (js_length v) 6); auto.
  - rewrite content_input_spec, L, hearing_nil. simpl.
    now rewrite app_nil_r.
  - now destruct (user_focus_frame tg w) as [? ->].
Qed.

(** C10. In the two revisions where auto-submit is disabled, page-ready
    only focuses the code input: no listener is attached, and whatever
    the user types afterwards (six characters included), however much
    time passes and whatever else changes the page, no timer is ever
    scheduled, nothing runs, and no form is submitted by the script. *)
Theorem C10_focus_only_never_submits :
  forall s t p acts,
    In s focus_only ->
    let w0 := domContentLoaded s (loaded t p) in
    let w := run acts w0 in
    activeElement w0 = focused p /\
    listeners w = [] /\ timers w = [] /\ history w = [] /\ log w = [] /\
    forall f, ~ In (Submitted f) (log w).
Proof.
  intros s t p acts Hs w0 w.
  assert (E : w0 = mkWorld t p [] [] (focused p) [] [])
    by now apply ready_focus_only.
  assert (I : listeners w = [] /\ timers w = [] /\ history w = [] /\
              log w = []).
  { unfold w. induction acts as [|a acts IH] using rev_ind.
    - simpl. now rewrite E.
    - destruct IH as (L & T & Hh & Lg).
      rewrite run_snoc, step_listeners.
      destruct (idle_step a _ L T) as (T' & Lg' & Hh').
      now rewrite T', Lg', Hh'. }
  destruct I as (L & T & Hh & Lg).
  repeat split; trivial.
  - now rewrite E.
  - intros f. now rewrite Lg.
Qed.

Lemma C10_witness :
  In main_js_focus_only focus_only /\
  log (run [UserInput 6 (utf16 "123456"); Tick 500; Fire]
         (domContentLoaded main_js_focus_only (loaded 0 login_page))) = [].
Proof.
  split; [now left|].
  exact (proj1 (proj2 (proj2 (proj2 (proj2
           (C10_focus_only_never_submits
              main_js_focus_only 0%N login_page
              [UserInput 6 (utf16 "123456"); Tick 500; Fire]
              (or_introl eq_refl))))))).
Defined.

(** ** Trees *)

Lemma root_prune_below h t : root (prune_below h t) = root t.
Proof. now destruct t. Qed.

Lemma preorder_root t : preorder t = root t :: descendants t.
Proof. now destruct t. Qed.

(** Below the root, [prune_below h] leaves no [h]. *)
Lemma prune_below_clean h t : ~ In h (descendants (prune_below h t)).
Proof.
  induction t as [x cs IH] using Tree_forall_ind.
  unfold descendants, tree_order. simpl.
  induction cs as [|c r IHr]; simpl; [tauto|].
  inversion IH as [|? ? Hc Hr]; subst.
  destruct (Nat.eqb (root c) h) eqn:E; [now apply IHr|].
  simpl. rewrite in_app_iff, preorder_root, root_prune_below.
  intros [[A | A] | A].
  - apply Nat.eqb_neq in E. congruence.
  - now apply Hc.
  - now apply IHr.
Qed.

Lemma prune_clean h f : ~ In h (tree_order (prune h f)).
Proof.
  unfold tree_order. induction f as [|t r IH]; simpl; [tauto|].
  destruct (Nat.eqb (root t) h) eqn:E; trivial.
  simpl. rewrite in_app_iff, preorder_root, root_prune_below.
  intros [[A | A] | A].
  - apply Nat.eqb_neq in E. congruence.
  - now apply (prune_below_clean h t).
  - now apply IH.
Qed.

Lemma find_subtree_in_none h t :
  find_subtree_in h t = None -> ~ In h (preorder t).
Proof.
  induction t as [x cs IH] using Tree_forall_ind. simpl.
  destruct (Nat.eqb x h) eqn:E; [discriminate|].
  apply Nat.eqb_neq in E. intros H [A | A]; [congruence|].
  revert H A. induction cs as [|c r IHr]; simpl; [tauto|].
  inversion IH as [|? ? Hc Hr]; subst.
  destruct (find_subtree_in h c) eqn:F; [discriminate|].
  intros H. rewrite in_app_iff. intros [A | A].
  - now apply Hc.
  - now apply IHr.
Qed.

Lemma find_subtree_none h f :
  find_subtree h f = None -> ~ In h (tree_order f).
Proof.
  unfold tree_order. induction f as [|t r IH]; simpl; [tauto|].
  destruct (find_subtree_in h t) eqn:F; [discriminate|].
  intros H. rewrite in_app_iff. intros [A | A].
  - now apply (find_subtree_in_none h t).
  - now apply IH.
Qed.

Lemma prune_below_node h x cs :
  prune_below h (Node x cs) = Node x (prune h cs).
Proof.
  simpl. f_equal. induction cs as [|c r IH]; simpl; trivial.
  now rewrite IH.
Qed.

Lemma find_subtree_in_node h x cs :
  find_subtree_in h (Node x cs)
  = if Nat.eqb x h then Some (Node x cs) else find_subtree h cs.
Proof.
  simpl. destruct (Nat.eqb x h); trivial.
  induction cs as [|c r IH]; simpl; trivial.
  now rewrite IH.
Qed.

Lemma find_subtree_some_step h cs :
  Forall (fun t => forall s, find_subtree_in h t = Some s ->
                             In h (preorder t)) cs ->
  forall s, find_subtree h cs = Some s -> In h (tree_order cs).
Proof.
  unfold tree_order. induction 1 as [|c r Hc Hr IH]; simpl; [discriminate|].
  intros s. rewrite in_app_iff. destruct (find_subtree_in h c) as [s'|] eqn:F.
  - intros _. left. now apply (Hc s').
  - intros H. right. now apply (IH s).
Qed.

Lemma find_subtree_in_some h t s :
  find_subtree_in h t = Some s -> In h (preorder t).
Proof.
  revert s. induction t as [x cs IH] using Tree_forall_ind. intros s.
  rewrite find_subtree_in_node. destruct (Nat.eqb x h) eqn:E.
  - intros _. apply Nat.eqb_eq in E. now left.
  - intros H. right. now apply (find_subtree_some_step h cs IH s).
Qed.

(** A subtree that is found has its root in the forest. *)
Lemma find_subtree_some h f s :
  find_subtree h f = Some s -> In h (tree_order f).
Proof.
  apply find_subtree_some_step, Forall_forall.
  intros t _ s'. apply find_subtree_in_some.
Qed.

Lemma NoDup_app_disjoint {A} (l l' : list A) a :
  NoDup (l ++ l') -> In a l -> ~ In a l'.
Proof.
  induction l as [|b l IH]; simpl; [tauto|].
  intros N [<- | H] H'.
  - inversion N as [|? ? Nb _]; subst. apply Nb, in_app_iff. now right.
  - inversion N; subst. now apply IH.
Qed.

Lemma distinct_NoDup l : distinct l = true -> NoDup l.
Proof.
  induction l as [|a l IH]; simpl; [constructor|].
  rewrite andb_true_iff, negb_true_iff. intros [N D].
  constructor; [|now apply IH]. intros H.
  assert (E : existsb (Nat.eqb a) l = true)
    by (apply existsb_exists; exists a; split; [exact H | apply Nat.eqb_refl]).
  congruence.
Qed.

Lemma prune_keeps_step h x cs :
  Forall (fun t => NoDup (preorder t) -> In x (preorder t) ->
                   root t <> h -> kept h x (find_subtree_in h t) ->
                   In x (preorder (prune_below h t))) cs ->
  NoDup (tree_order cs) -> In x (tree_order cs) ->
  kept h x (find_subtree h cs) ->
  In x (tree_order (prune h cs)).
Proof.
  unfold tree_order. induction 1 as [|c r Hc Hr IH]; simpl; [tauto|].
  intros N I K.
  assert (Nc : NoDup (preorder c)) by now apply NoDup_app_remove_r in N.
  assert (Nr : NoDup (flat_map preorder r))
    by now apply NoDup_app_remove_l in N.
  apply in_app_iff in I. destruct (Nat.eqb (root c) h) eqn:E.
  - apply Nat.eqb_eq in E.
    assert (F : find_subtree_in h c = Some c).
    { destruct c as [y ds]. rewrite find_subtree_in_node.
      simpl in E. subst y. now rewrite Nat.eqb_refl. }
    rewrite F in K. simpl in K.
    assert (Hh : In h (preorder c))
      by (rewrite preorder_root; left; exact E).
    assert (Fr : find_subtree h r = None).
    { destruct (find_subtree h r) as [s|] eqn:Fr; trivial.
      apply find_subtree_some in Fr.
      destruct (NoDup_app_disjoint _ _ _ N Hh Fr). }
    apply IH; trivial.
    + destruct I as [I | I]; trivial. exfalso.
      unfold inside in K.
      assert (T : existsb (Nat.eqb x) (preorder c) = true)
        by (apply existsb_exists; exists x;
            split; [exact I | apply Nat.eqb_refl]).
      congruence.
    + now rewrite Fr.
  - apply Nat.eqb_neq in E. simpl. apply in_app_iff.
    destruct I as [I | I].
    + left. apply Hc; trivial. now destruct (find_subtree_in h c).
    + right. apply IH; trivial.
      destruct (find_subtree_in h c) as [s|] eqn:F; trivial.
      apply find_subtree_in_some in F.
      destruct (find_subtree h r) as [s'|] eqn:Fr; [|exact Logic.I].
      apply find_subtree_some in Fr.
      destruct (NoDup_app_disjoint _ _ _ N F Fr).
Qed.

Lemma prune_below_keeps h x t :
  NoDup (preorder t) -> In x (preorder t) -> root t <> h ->
  kept h x (find_subtree_in h t) ->
  In x (preorder (prune_below h t)).
Proof.
  induction t as [y cs IH] using Tree_forall_ind.
  rewrite prune_below_node, find_subtree_in_node. simpl.
  intros N [I | I] R K; [now left|]. right.
  apply Nat.eqb_neq in R. rewrite R in K.
  inversion N; subst. now apply (prune_keeps_step h x cs IH).
Qed.

Lemma prune_keeps h x f :
  NoDup (tree_order f) -> In x (tree_order f) ->
  kept h x (find_subtree h f) ->
  In x (tree_order (prune h f)).
Proof.
  apply prune_keeps_step, Forall_forall.
  intros t _. apply prune_below_keeps.
Qed.

Lemma find_subtree_app h f g :
  find_subtree h (f ++ g)
  = match find_subtree h f with
    | Some s => Some s
    | None => find_subtree h g
    end.
Proof.
  induction f as [|t r IH]; simpl; trivial.
  now destruct (find_subtree_in h t).
Qed.

(** On a page without repetition, [el.remove()] takes nothing out of the
    document but [el] and what it contains. *)
Lemma remove_keeps_others el p x :
  well_formed p = true ->
  In x (tree_order (document p)) ->
  inside (subtree_of p el) x = false ->
  In x (tree_order (document (remove el p))).
Proof.
  intros W I K. unfold remove, subtree_of in *.
  rewrite find_subtree_app in K.
  destruct (find_subtree el (document p)) as [t|] eqn:F; simpl.
  - apply prune_keeps; trivial.
    + now apply distinct_NoDup.
    + now rewrite F.
  - now destruct (find_subtree el (flat_map childNodes (detached p))).
Qed.

(** [el.remove()] takes [el] out of the document. *)
Lemma remove_detaches el p : ~ In el (tree_order (document (remove el p))).
Proof.
  unfold remove. destruct (find_subtree el (document p)) eqn:F; simpl.
  - apply prune_clean.
  - apply find_subtree_none in F.
    now destruct (find_subtree el (flat_map childNodes (detached p))).
Qed.

Lemma prune_below_shrinks h t x :
  In x (preorder (prune_below h t)) -> In x (preorder t).
Proof.
  revert x. induction t as [a cs IH] using Tree_forall_ind. intros x.
  simpl. intros [-> | H]; [now left|]. right.
  revert H. induction cs as [|c r IHr]; simpl; trivial.
  inversion IH as [|? ? Hc Hr]; subst.
  rewrite in_app_iff. destruct (Nat.eqb (root c) h).
  - intros H. right. now apply IHr.
  - simpl. rewrite in_app_iff. intros [H | H].
    + left. now apply Hc.
    + right. now apply IHr.
Qed.

Lemma prune_shrinks h f x :
  In x (tree_order (prune h f)) -> In x (tree_order f).
Proof.
  unfold tree_order. induction f as [|t r IH]; simpl; trivial.
  rewrite in_app_iff. destruct (Nat.eqb (root t) h).
  - intros H. right. now apply IH.
  - simpl. rewrite in_app_iff. intros [H | H].
    + left. now apply (prune_below_shrinks h).
    + right. now apply IH.
Qed.

(** [el.remove()] adds nothing to the document. *)
Lemma remove_shrinks el p x :
  In x (tree_order (document (remove el p))) ->
  In x (tree_order (document p)).
Proof.
  unfold remove. destruct (find_subtree el (document p)); simpl.
  - apply prune_shrinks.
  - now destruct (find_subtree el (flat_map childNodes (detached p))).
Qed.

(** ** Flash messages *)

Lemma distinct_count m l :
  distinct l = true -> In m l -> count (Nat.eqb m) l = 1.
Proof.
  induction l as [|a l IH]; simpl; [tauto|].
  rewrite andb_true_iff, negb_true_iff. intros [N D] H.
  rewrite count_cons. destruct (Nat.eqb m a) eqn:E.
  - apply Nat.eqb_eq in E. subst a.
    replace (count (Nat.eqb m) l) with 0; trivial.
    symmetry. apply count_zero. intros x Hx.
    destruct (Nat.eqb m x) eqn:E'; trivial.
    rewrite <- N. symmetry. apply existsb_exists. now exists x.
  - destruct H as [-> | H]; [now rewrite Nat.eqb_refl in E|].
    now rewrite IH.
Qed.

Lemma count_filter_eqb (P : handle -> bool) m l :
  P m = true -> count (Nat.eqb m) (filter P l) = count (Nat.eqb m) l.
Proof.
  intros H. induction l as [|a l IH]; simpl; trivial.
  destruct (P a) eqn:E; rewrite !count_cons, ?IH; trivial.
  destruct (Nat.eqb m a) eqn:E'; trivial.
  apply Nat.eqb_eq in E'. congruence.
Qed.

Lemma count_dismiss_timers t m ms :
  count (calls (DismissMessage m)) (map (dismiss_timer t) ms)
  = count (Nat.eqb m) ms.
Proof.
  induction ms as [|a ms IH]; simpl; trivial.
  rewrite !count_cons, IH. unfold calls. simpl.
  now rewrite (Nat.eqb_sym a m).
Qed.

Lemma created_no_dismiss m a w :
  count (calls (DismissMessage m)) (created a w) = 0.
Proof.
  apply count_zero. intros x Hx.
  destruct a as [dt | | el v | el | tg | f]; simpl in Hx; try tauto.
  destruct (Nat.eqb (js_length v) 6); [|destruct Hx].
  apply in_map_iff in Hx. now destruct Hx as (r & <- & _).
Qed.

Lemma dismissals_accounting m acts w :
  pending (DismissMessage m) (run acts w) + ran (DismissMessage m) (run acts w)
  = pending (DismissMessage m) w + ran (DismissMessage m) w.
Proof.
  unfold pending, ran. induction acts as [|a acts IH] using rev_ind; trivial.
  rewrite run_snoc, step_accounting, created_no_dismiss, IH
    by (intros; now apply calls_not_remove).
  lia.
Qed.

Lemma dismissals_ready t p m :
  well_formed p = true ->
  In m (tree_order (document p)) ->
  has_class p "alert-error" m ->
  let w := domContentLoaded main_js_flash (loaded t p) in
  pending (DismissMessage m) w + ran (DismissMessage m) w = 1.
Proof.
  intros W I C. cbv zeta. rewrite ready_main_js_flash.
  unfold pending, ran. simpl. rewrite count_nil, Nat.add_0_r.
  rewrite count_dismiss_timers. unfold querySelectorAll.
  rewrite count_filter_eqb by now apply matches_has_class.
  now apply distinct_count.
Qed.

Lemma closeButton_spec p m r :
  element_querySelector (Class "btn-close") p m = r ->
  match r with
  | Some b => first_such (has_class p "btn-close")
                         (descendants (subtree_of p m)) b
  | None => none_such (has_class p "btn-close")
                      (descendants (subtree_of p m))
  end.
Proof.
  unfold element_querySelector. intros <-.
  destruct (find _ _) as [b|] eqn:E.
  - now apply (find_first_such _ _ (matches_has_class p "btn-close")).
  - now apply (find_none_such _ _ (matches_has_class p "btn-close")).
Qed.

(** C7, as the code has it.  Under the flash revision, on a page where
    no element occurs twice, every element of the document that carries
    the class [alert-error] at page-ready has exactly one dismissal: in
    every state reached afterwards it is either still pending or has run
    once; it never runs earlier than 300000 ms after page-ready; and once
    that time has passed and the loop has run the due timers, it has run.
    What the dismissal does: when the message contains, at any depth, an
    element with class [btn-close], the first such element in tree order
    gets one [click()] and nothing else happens; otherwise the message
    gets the transition [opacity 0.5s] and the opacity [0], and a timer
    due 500 ms later is appended, which runs once those 500 ms are over,
    whatever else happens, and whose callback takes the message out of
    the document: nothing joins the document, and on a page where no
    element occurs twice nothing leaves it but the message and what it
    contains. *)
Theorem C7_error_messages_dismissed_once :
  forall t p acts m,
    well_formed p = true ->
    In m (tree_order (document p)) ->
    has_class p "alert-error" m ->
    let w := run acts (domContentLoaded main_js_flash (loaded t p)) in
    pending (DismissMessage m) w + ran (DismissMessage m) w = 1 /\
    (forall at_ tm,
        In (at_, tm) (history w) -> callback tm = DismissMessage m ->
        (t + 300000 <= at_)%N) /\
    ((t + 300000 <= now w)%N -> ran (DismissMessage m) (drain w) = 1) /\
    (forall w1 b,
        first_such (has_class (page w1) "btn-close")
                   (descendants (subtree_of (page w1) m)) b ->
        exists w2,
          run_callback (DismissMessage m) w1 = Normal w2 /\
          log w2 = log w1 ++ [Clicked b] /\
          timers w2 = timers w1 /\
          page w2 = page w1) /\
    (forall w1,
        none_such (has_class (page w1) "btn-close")
                  (descendants (subtree_of (page w1) m)) ->
        exists w2,
          run_callback (DismissMessage m) w1 = Normal w2 /\
          style (element (page w2) m) = mkStyle "opacity 0.5s" "0" /\
          timers w2 = timers w1 ++ [mkTimer (now w1 + 500) (RemoveMessage m)] /\
          log w2 = log w1 /\
          document (page w2) = document (page w1) /\
          forall later,
            (now w1 + 500 <= now (run later w2))%N ->
            ran_timer (mkTimer (now w1 + 500) (RemoveMessage m))
                      (drain (run later w2))
            >= S (ran_timer (mkTimer (now w1 + 500) (RemoveMessage m)) w1)) /\
    (forall w3,
        exists w4,
          run_callback (RemoveMessage m) w3 = Normal w4 /\
          ~ In m (tree_order (document (page w4))) /\
          log w4 = log w3 /\ timers w4 = timers w3 /\
          (forall x, In x (tree_order (document (page w4))) ->
                     In x (tree_order (document (page w3)))) /\
          (well_formed (page w3) = true ->
           forall x, In x (tree_order (document (page w3))) ->
                     inside (subtree_of (page w3) m) x = false ->
                     In x (tree_order (document (page w4))))).
Proof.
  intros t p acts m W I C w.
  set (w0 := domContentLoaded main_js_flash (loaded t p)) in *.
  assert (A : forall acts', pending (DismissMessage m) (run acts' w0)
                            + ran (DismissMessage m) (run acts' w0) = 1).
  { intros acts'. rewrite dismissals_accounting.
    now apply dismissals_ready. }
  assert (T : forall acts', timing t (run acts' w0))
    by (intros; apply timing_run, timing_ready; right; now left).
  split; [apply A|]. split; [|split; [|split; [|split]]].
  - intros at_ tm H Hc. destruct (T acts) as [R _ D].
    specialize (R _ _ H). rewrite (D _ _ _ H Hc) in R.
    exact R.
  - intros Hn.
    assert (E : drain w = run (acts ++ repeat Fire (List.length (timers w))) w0)
      by (rewrite run_app; apply fire_all_run).
    pose proof (A (acts ++ repeat Fire (List.length (timers w)))) as A'.
    destruct (T (acts ++ repeat Fire (List.length (timers w)))) as [_ P _].
    rewrite <- E in A', P.
    replace (pending (DismissMessage m) (drain w)) with 0 in A'; trivial.
    symmetry. apply count_zero. intros x Hx.
    destruct (calls (DismissMessage m) x) eqn:Ec; trivial.
    apply callback_eqb_eq in Ec.
    pose proof (drain_complete w) as F. apply fire_none in F.
    pose proof (proj1 (count_zero _ _) F x Hx) as N.
    unfold drain in N at 1. rewrite fire_all_now in N.
    unfold is_due in N. apply N.leb_gt in N.
    rewrite (P x m Hx Ec) in N. change (5 * 60 * 1000)%N with 300000%N in N.
    lia.
  - intros w1 b H.
    pose proof (closeButton_spec (page w1) m _ eq_refl) as S.
    cbn -[element_querySelector].
    destruct (element_querySelector (Class "btn-close") (page w1) m) as [b'|].
    + rewrite (first_such_unique _ _ _ _ H S).
      eexists. split; [reflexivity|]. simpl. auto.
    + destruct (first_none_such _ _ _ H S).
  - intros w1 H.
    pose proof (closeButton_spec (page w1) m _ eq_refl) as S.
    cbn -[element_querySelector].
    destruct (element_querySelector (Class "btn-close") (page w1) m) as [b'|].
    + destruct (first_none_such _ _ _ S H).
    + eexists. split; [reflexivity|]. simpl.
      rewrite Nat.eqb_refl. repeat split.
      intros later D.
      match goal with
      | |- ran_timer ?rm (drain (run later ?w2)) >= _ =>
          destruct (timer_runs rm later w2 D) as [_ R];
          assert (P : pending_timer rm w2 = pending_timer rm w1 + 1)
            by (unfold pending_timer; simpl;
                now rewrite count_app, count_cons, count_nil,
                  timer_eqb_refl);
          assert (Q : ran_timer rm w2 = ran_timer rm w1) by reflexivity
      end.
      lia.
  - intros w3. eexists. split; [reflexivity|]. simpl.
    split; [apply remove_detaches|]. split; trivial. split; trivial.
    split; [intros x; apply remove_shrinks|].
    intros W3 x. now apply remove_keeps_others.
Qed.

Lemma C7_witness :
  well_formed login_page = true /\
  In 4 (tree_order (document login_page)) /\
  has_class login_page "alert-error" 4 /\
  ran (DismissMessage 4)
    (drain (run [UserInput 6 (utf16 "12345"); Tick 300000]
              (domContentLoaded main_js_flash (loaded 0 login_page)))) = 1 /\
  In 2 (tree_order (document login_page)) /\
  has_class login_page "alert-error" 2 /\
  first_such (has_class login_page "btn-close")
             (descendants (subtree_of login_page 2)) 3 /\
  exists w2,
    run_callback (DismissMessage 2) (loaded 300000 login_page) = Normal w2 /\
    log w2 = [Clicked 3].
Proof.
  assert (I : In 4 (tree_order (document login_page))) by (simpl; tauto).
  assert (C : has_class login_page "alert-error" 4) by (now left).
  assert (I2 : In 2 (tree_order (document login_page))) by (simpl; tauto).
  assert (C2 : has_class login_page "alert-error" 2) by (right; now left).
  assert (B : first_such (has_class login_page "btn-close")
                (descendants (subtree_of login_page 2)) 3)
    by exact (closeButton_spec login_page 2 (Some 3) eq_refl).
  split; [reflexivity|]. split; [exact I|]. split; [exact C|].
  split.
  { pose proof (C7_error_messages_dismissed_once
                  0%N login_page [UserInput 6 (utf16 "12345"); Tick 300000] 4
                  eq_refl I C) as H.
    destruct H as (_ & _ & H & _).
    apply H. vm_compute. discriminate. }
  split; [exact I2|]. split; [exact C2|]. split; [exact B|].
  pose proof (C7_error_messages_dismissed_once
                0%N login_page [] 2 eq_refl I2 C2) as H.
  destruct H as (_ & _ & _ & H & _).
  destruct (H (loaded 300000 login_page) 3 B) as (w2 & E & L & _).
  exists w2. split; [exact E | exact L].
Defined.

(** C7, as the specification words it, fails where it says child: on a
    page whose error message holds its close button inside a wrapper, the
    message has no child with the close-button class, yet the dismissal
    clicks the button and neither fades nor detaches the message. *)
Lemma C7_close_button_inside_a_wrapper :
  let w :=
    drain (tick 500
             (drain (tick 300000
                       (domContentLoaded main_js_flash
                          (loaded 0 wrapped_page))))) in
  has_class wrapped_page "alert-error" 2 /\
  map root (childNodes (subtree_of wrapped_page 2)) = [3] /\
  ~ has_class wrapped_page "btn-close" 3 /\
  log w = [Clicked 4] /\
  style (element (page w) 2) = mkStyle "" "" /\
  In 2 (tree_order (document (page w))) /\
  ran (RemoveMessage 2) w = 0.
Proof.
  vm_compute. repeat split; tauto.
Qed.

(** * Further properties of the scripts *)

(** ** Page-ready *)

Lemma handler_frame h w :
  exists w',
    run_handler h w = Normal w' /\
    now w' = now w /\ page w' = page w /\ log w' = log w /\
    history w' = history w /\
    (exists regs, listeners w' = listeners w ++ regs) /\
    exists ms, timers w' = timers w ++ map (dismiss_timer (now w)) ms.
Proof.
  destruct h; cbn -[findCodeInput querySelectorAll N.mul focus].
  - destruct (findCodeInput (page w)) as [c|]; eexists;
      (split; [reflexivity|]); unfold focus;
      try destruct (focusable (element (page w) c));
      simpl; repeat split; trivial;
      try (exists []; now rewrite app_nil_r).
  - destruct (findCodeInput (page w)); eexists; split; try reflexivity;
      simpl; repeat split; trivial;
      try (exists []; now rewrite app_nil_r).
    now eexists.
  - eexists. split; [reflexivity|]. rewrite schedule_fold. simpl.
    repeat split; trivial.
    + exists []. now rewrite app_nil_r.
    + now eexists.
Qed.

(** X1. Page-ready never raises and never touches the document, for any
    page and any list of the three handlers: every handler returns
    normally, the page, the log and the loop's record stay as they were,
    and the only timers it creates are dismissals of flash messages. *)
Theorem page_ready_is_quiet :
  forall (s : Script) w,
    let w' := domContentLoaded s w in
    (forall h w0, exists w1, run_handler h w0 = Normal w1) /\
    now w' = now w /\ page w' = page w /\ log w' = log w /\
    history w' = history w /\
    exists ms, timers w' = timers w ++ map (dismiss_timer (now w)) ms.
Proof.
  intros s w. cbv zeta. split.
  { intros h w0. destruct (handler_frame h w0) as (w1 & E & _). now exists w1. }
  unfold domContentLoaded. revert w.
  induction s as [|h s IH]; intros w; simpl.
  - repeat split. exists []. now rewrite app_nil_r.
  - destruct (handler_frame h w) as (w1 & E & N & P & L & H & _ & ms & T).
    rewrite E. cbn [report].
    destruct (IH w1) as (N' & P' & L' & H' & ms' & T').
    rewrite N', P', L', H', T', N, P, L, H, T.
    repeat split. exists (ms ++ ms').
    now rewrite map_app, app_assoc.
Qed.

(** ** Which element listens *)

(** X2. Under main.js (or its flash revision) the lookup is made once, at
    page-ready: the input listener is registered on the element found
    then, the element page-ready called [focus()] on, and whatever
    happens later, changes of the page included, it stays there and no
    other listener is added, even when the lookup would find another
    element or none on the page as it has become. *)
Theorem listener_stays_where_page_ready_put_it :
  forall s t p acts,
    In s with_auto_submit ->
    let w0 := domContentLoaded s (loaded t p) in
    let w := run acts w0 in
    listeners w = registrations p /\
    (forall c, findCodeInput p = Some c ->
               listeners w = [auto_submit_on c] /\
               (focusable (element p c) = true -> activeElement w0 = Some c))
    /\
    (findCodeInput p = None -> listeners w = []).
Proof.
  intros s t p acts Hs w0 w.
  assert (L : listeners w = registrations p).
  { unfold w, w0. now rewrite run_listeners, ready_listeners. }
  assert (A : activeElement w0 = focused p).
  { unfold w0. destruct Hs as [<- | [<- | []]];
      [now rewrite ready_main_js | now rewrite ready_main_js_flash]. }
  split; [exact L|]. rewrite L, A. unfold registrations, focused. split.
  - intros c ->. split; trivial. now intros ->.
  - now intros ->.
Qed.

Lemma listener_stays_witness :
  In main_js_flash with_auto_submit /\
  findCodeInput login_page = Some 6 /\
  findCodeInput bare_page = None /\
  listeners
    (run [Mutate (fun _ => bare_page); UserFocus (Some 7);
          UserInput 7 (utf16 "123456"); Tick 9]
       (domContentLoaded main_js_flash (loaded 0 login_page)))
  = [auto_submit_on 6].
Proof.
  split; [right; now left|]. split; [reflexivity|]. split; [reflexivity|].
  exact (proj1 (proj1 (proj2 (listener_stays_where_page_ready_put_it
                                main_js_flash 0%N login_page
                                [Mutate (fun _ => bare_page);
                                 UserFocus (Some 7);
                                 UserInput 7 (utf16 "123456"); Tick 9]
                                (or_intror (or_introl eq_refl)))) 6 eq_refl)).
Defined.

Lemma ready_any_listeners s t p :
  In s revisions ->
  listeners (domContentLoaded s (loaded t p)) = registrations p \/
  listeners (domContentLoaded s (loaded t p)) = [].
Proof.
  intros H. apply in_app_or in H. destruct H as [H | H].
  - left. now apply ready_listeners.
  - right. now rewrite ready_focus_only.
Qed.

Lemma hearing_off_path c el p :
  ~ In c (event_path p el) -> hearing "input" el p [auto_submit_on c] = [].
Proof.
  intros H. rewrite hearing_one. simpl.
  replace (existsb (Nat.eqb c) (event_path p el)) with false; trivial.
  symmetry. apply not_true_is_false. intros E.
  apply existsb_exists in E. destruct E as (x & Hx & Ex).
  apply Nat.eqb_eq in Ex. now subst x.
Qed.

Lemma hearing_on_path c el p :
  In c (event_path p el) ->
  hearing "input" el p [auto_submit_on c] = [auto_submit_on c].
Proof.
  intros H. rewrite hearing_one. simpl.
  replace (existsb (Nat.eqb c) (event_path p el)) with true; trivial.
  symmetry. apply existsb_exists. exists c.
  split; [exact H | apply Nat.eqb_refl].
Qed.

Lemma hearing_elsewhere s t p acts el :
  In s revisions ->
  let w := run acts (domContentLoaded s (loaded t p)) in
  off_path p w el ->
  hearing "input" el (page w) (listeners w) = [].
Proof.
  intros Hs w H. unfold w at 2. rewrite run_listeners.
  destruct (ready_any_listeners s t p Hs) as [-> | ->];
    [|apply hearing_nil].
  unfold registrations. destruct (findCodeInput p) as [c|] eqn:E;
    [|apply hearing_nil].
  apply hearing_off_path. now apply H.
Qed.

(** X3. An input event at an element that is neither the element found
    at page-ready nor inside it (the found element is not on the path of
    the event) schedules nothing and logs nothing, whatever the value,
    with or without a value, and whatever the revision; in particular no
    input event does anything on a page where the lookup found no
    element. *)
Theorem other_fields_schedule_nothing :
  forall s t p acts el v,
    In s revisions ->
    let w := run acts (domContentLoaded s (loaded t p)) in
    off_path p w el ->
    timers (user_input el v w) = timers w /\
    log (user_input el v w) = log w /\
    history (user_input el v w) = history w /\
    timers (content_input el w) = timers w /\
    log (content_input el w) = log w /\
    history (content_input el w) = history w.
Proof.
  intros s t p acts el v Hs w H.
  pose proof (hearing_elsewhere s t p acts el Hs H) as E. fold w in E.
  clearbody w.
  rewrite user_input_spec, content_input_spec, E. simpl.
  rewrite app_nil_r.
  destruct (Nat.eqb (js_length v) 6); rewrite app_nil_r; repeat split.
Qed.

Lemma other_fields_witness :
  In main_js revisions /\
  off_path login_page
    (run [] (domContentLoaded main_js (loaded 0 login_page))) 7 /\
  timers (user_input 7 (utf16 "123456")
            (run [] (domContentLoaded main_js (loaded 0 login_page)))) = [].
Proof.
  assert (N : off_path login_page
                (run [] (domContentLoaded main_js (loaded 0 login_page))) 7).
  { intros c [= <-]. vm_compute. intuition discriminate. }
  split; [now left|]. split; [exact N|].
  exact (proj1 (other_fields_schedule_nothing
                  main_js 0%N login_page [] 7 (utf16 "123456")
                  (or_introl eq_refl) N)).
Defined.

(** X12. The listener reads the target of the event, not the element it
    is registered on.  Under main.js (or its flash revision), an input
    event at an element that is the element found at page-ready or stands
    inside it is heard once: with a value of six code units it appends
    one timer, due 500 ms later, that submits the form owner of the
    event's own target; with a value of another length it does nothing;
    and at an element without a value property it schedules nothing and
    leaves one uncaught [TypeError] in the log. *)
Theorem listener_reads_the_event_target :
  forall s t p c acts el v,
    In s with_auto_submit ->
    findCodeInput p = Some c ->
    let w := run acts (domContentLoaded s (loaded t p)) in
    In c (event_path (page w) el) ->
    (js_length v = 6 ->
     timers (user_input el v w) = timers w ++ [submit_timer (now w) el]) /\
    (js_length v <> 6 -> timers (user_input el v w) = timers w) /\
    log (user_input el v w) = log w /\
    timers (content_input el w) = timers w /\
    log (content_input el w) = log w ++ [Uncaught TypeError] /\
    (forall w1 f, form (element (page w1) el) = Some f ->
                  exists w2, run_callback (SubmitForm el) w1 = Normal w2 /\
                             log w2 = log w1 ++ [Submitted f]).
Proof.
  intros s t p c acts el v Hs Hc w H.
  assert (L : listeners w = [auto_submit_on c])
    by now apply reachable_listeners.
  clearbody w.
  rewrite user_input_spec, content_input_spec, L.
  rewrite (hearing_on_path c el (page w) H). simpl.
  split; [|split; [|split; [|split; [|split]]]]; trivial.
  - now intros ->.
  - intros N. apply Nat.eqb_neq in N. rewrite N. apply app_nil_r.
  - intros w1 f Hf. eexists. simpl. rewrite Hf. split; reflexivity.
Qed.

Lemma listener_reads_witness :
  In main_js with_auto_submit /\
  findCodeInput wrapper_page = Some 2 /\
  In 2 (event_path wrapper_page 4) /\
  js_length (utf16 "123456") = 6 /\
  timers (user_input 4 (utf16 "123456")
            (run [] (domContentLoaded main_js (loaded 0 wrapper_page))))
  = [submit_timer 0 4].
Proof.
  assert (I : In 2 (event_path wrapper_page 4)) by (vm_compute; tauto).
  split; [now left|]. split; [reflexivity|]. split; [exact I|].
  split; [reflexivity|].
  exact (proj1 (listener_reads_the_event_target
                  main_js 0%N wrapper_page 2 [] 4 (utf16 "123456")
                  (or_introl eq_refl) eq_refl I) eq_refl).
Defined.

(** ** What the lookup returns *)

Lemma first_such_in Q l h : first_such Q l h -> In h l /\ Q h.
Proof.
  intros (b & c & -> & Qh & _). split; trivial.
  apply in_or_app. right. now left.
Qed.

(** X4. The element the lookup returns stands in the document and
    satisfies one of the three rules; by the pattern and the maxlength
    rules only [input] elements are returned.  An element that is only in
    a detached tree is never returned. *)
Theorem lookup_returns_attached_match :
  forall p h,
    findCodeInput p = Some h ->
    In h (tree_order (document p)) /\
    (has_id p "code" h \/
     input_with p "pattern" "[0-9]{6}" h \/
     input_with p "maxlength" "6" h).
Proof.
  intros p h H. apply findCodeInput_chosen in H.
  inversion H as [x F | x _ F | x _ _ F |]; subst;
    destruct (first_such_in _ _ _ F) as [I Q]; auto.
Qed.

Lemma lookup_returns_witness :
  findCodeInput login_page = Some 6 /\
  In 6 (tree_order (document login_page)).
Proof.
  split; [reflexivity|].
  exact (proj1 (lookup_returns_attached_match login_page 6 eq_refl)).
Defined.

(** ** What a timer task does, by callback *)

Lemma fire_cases w w' :
  fire w = Some w' ->
  exists tm rest,
    next_timer (now w) (timers w) = Some (tm, rest) /\
    match callback tm with
    | SubmitForm c =>
        w' = match form (element (page w) c) with
             | Some f => submit f (started tm (set_timers rest w))
             | None => emit (Uncaught TypeError)
                            (started tm (set_timers rest w))
             end
    | DismissMessage m =>
        w' = match closeButton (page w) m with
             | Some b => click b (started tm (set_timers rest w))
             | None =>
                 setTimeout (RemoveMessage m) 500
                   (on_page (update_element m (set_opacity "0"))
                      (on_page (update_element m
                                  (set_transition "opacity 0.5s"))
                         (started tm (set_timers rest w))))
             end
    | RemoveMessage m =>
        w' = detach m (started tm (set_timers rest w))
    end.
Proof.
  intros F. destruct (fire_inv _ _ F) as (tm & rest & N & ->).
  exists tm, rest. split; trivial.
  destruct (callback tm) as [c | m | m]; simpl; trivial.
  - now destruct (form (element (page w) c)).
  - unfold closeButton.
    now destruct (element_querySelector (Class "btn-close") (page w) m).
Qed.

Lemma count_le_impl {A} (P Q : A -> bool) l :
  (forall x, P x = true -> Q x = true) -> count P l <= count Q l.
Proof.
  intros H. induction l as [|a l IH]; trivial.
  rewrite !count_cons. destruct (P a) eqn:E.
  - rewrite (H a E). lia.
  - destruct (Q a); lia.
Qed.

(** ** Submissions and input events *)

Lemma count_snoc {A} (P : A -> bool) l a :
  count P (l ++ [a]) = count P l + if P a then 1 else 0.
Proof. rewrite count_app, count_cons, count_nil. lia. Qed.

Lemma count_history_snoc (P : Timer -> bool) (l : list (N * Timer)) t tm :
  count P (map snd (l ++ [(t, tm)]))
  = count P (map snd l) + if P tm then 1 else 0.
Proof. rewrite map_app. apply count_snoc. Qed.

Lemma count_uncaught (P : Effect -> bool) {A} (rs : list A) :
  P (Uncaught TypeError) = false ->
  count P (map (fun _ => Uncaught TypeError) rs) = 0.
Proof.
  intros H. apply count_zero. intros x Hx.
  apply in_map_iff in Hx. now destruct Hx as (r & <- & _).
Qed.

(** A call of [submit()] enters the log only when a submit timer runs. *)
Lemma step_submitted a w :
  count is_submitted (log (step a w))
  + count is_submit_timer (map snd (history w))
  <= count is_submitted (log w)
     + count is_submit_timer (map snd (history (step a w))).
Proof.
  destruct a as [dt | | el v | el | tg | f]; simpl; trivial.
  - destruct (fire w) as [w'|] eqn:F; trivial.
    destruct (fire_cases _ _ F) as (tm & rest & _ & E).
    pose proof (count_history_snoc is_submit_timer (history w) (now w) tm)
      as S'.
    unfold is_submit_timer at 3 in S'.
    destruct (callback tm) as [c | m | m]; subst w'.
    + destruct (form (element (page w) c)); simpl;
        rewrite S', count_snoc; simpl; lia.
    + destruct (closeButton (page w) m); simpl;
        rewrite S', ?count_snoc; simpl; lia.
    + simpl. rewrite S'. lia.
  - now rewrite user_input_spec.
  - rewrite content_input_spec. simpl.
    rewrite count_app, count_uncaught; trivial. lia.
  - now destruct (user_focus_frame tg w) as [? ->].
Qed.

(** Every submit callback that runs leaves one entry in the log, the call
    or the exception; the only other entries of that kind come from the
    listener, at an element without a value. *)
Lemma step_attempts a w :
  valued a = true ->
  count is_attempt (log (step a w))
  + count is_submit_timer (map snd (history w))
  = count is_attempt (log w)
    + count is_submit_timer (map snd (history (step a w))).
Proof.
  intros V. destruct a as [dt | | el v | el | tg | f]; simpl; trivial;
    try discriminate.
  - destruct (fire w) as [w'|] eqn:F; trivial.
    destruct (fire_cases _ _ F) as (tm & rest & _ & E).
    pose proof (count_history_snoc is_submit_timer (history w) (now w) tm)
      as S'.
    unfold is_submit_timer at 3 in S'.
    destruct (callback tm) as [c | m | m]; subst w'.
    + destruct (form (element (page w) c)); simpl;
        rewrite S', count_snoc; simpl; lia.
    + destruct (closeButton (page w) m); simpl;
        rewrite S', ?count_snoc; simpl; lia.
    + simpl. rewrite S'. lia.
  - now rewrite user_input_spec.
  - now destruct (user_focus_frame tg w) as [? ->].
Qed.

(** With one listener at most, an input event creates one submit timer at
    most, and only with a value of six code units. *)
Lemma created_at_most_one r a w :
  listeners w = [r] \/ listeners w = [] ->
  count is_submit_timer (created a w) <= if six_chars a then 1 else 0.
Proof.
  intros L. destruct a as [dt | | el v | el | tg | f]; simpl;
    rewrite ?count_nil; trivial.
  destruct (Nat.eqb (js_length v) 6); rewrite ?count_nil; trivial.
  etransitivity; [apply count_le_length|]. rewrite length_map.
  destruct L as [-> | ->].
  - rewrite hearing_one.
    destruct (String.eqb (eventType r) "input"
              && existsb (Nat.eqb (target r)) (event_path (page w) el));
      simpl; lia.
  - rewrite hearing_nil. simpl. lia.
Qed.

Lemma is_submit_timer_not_remove d m :
  is_submit_timer (mkTimer d (RemoveMessage m)) = false.
Proof. reflexivity. Qed.

Lemma ready_quiet s t p :
  In s revisions ->
  let w0 := domContentLoaded s (loaded t p) in
  log w0 = [] /\ history w0 = [] /\ count is_submit_timer (timers w0) = 0.
Proof.
  intros H. apply in_app_or in H. destruct H as [[<- | [<- | []]] | H].
  - now rewrite ready_main_js.
  - cbv zeta. rewrite ready_main_js_flash. simpl. repeat split.
    apply count_zero. intros x Hx. apply in_map_iff in Hx.
    now destruct Hx as (m & <- & _).
  - cbv zeta. now rewrite ready_focus_only.
Qed.

(** X5. Whatever the revision, in every state reached after page-ready:
    the calls of [submit()] in the log are at most as many as the submit
    timers that have run; the submit timers that have run or are still
    pending are at most as many as the input events with a value of six
    code units; so the script never calls [submit()] without such an
    event, and at most once per event.  When no input event came from an
    element without a value, the calls of [submit()] and the uncaught
    exceptions in the log are together exactly as many as the submit
    timers that have run. *)
Theorem at_most_one_submit_per_complete_input :
  forall s t p acts,
    In s revisions ->
    let w := run acts (domContentLoaded s (loaded t p)) in
    count is_submitted (log w)
    <= count is_submit_timer (map snd (history w)) /\
    count is_submit_timer (timers w)
    + count is_submit_timer (map snd (history w))
    <= count six_chars acts /\
    count is_submitted (log w) <= count six_chars acts /\
    (forallb valued acts = true ->
     count is_attempt (log w)
     = count is_submit_timer (map snd (history w))).
Proof.
  intros s t p acts Hs.
  destruct (ready_quiet s t p Hs) as (Hl & Hh & Ht). cbv zeta in *.
  assert (L : forall acts,
             listeners (run acts (domContentLoaded s (loaded t p)))
             = [auto_submit_on (match findCodeInput p with
                                | Some c => c
                                | None => 0
                                end)] \/
             listeners (run acts (domContentLoaded s (loaded t p))) = []).
  { intros l. rewrite run_listeners.
    destruct (ready_any_listeners s t p Hs) as [-> | ->]; auto.
    unfold registrations. destruct (findCodeInput p); auto. }
  assert (A : count is_submitted
                (log (run acts (domContentLoaded s (loaded t p))))
              <= count is_submit_timer
                   (map snd (history
                               (run acts (domContentLoaded s (loaded t p)))))).
  { induction acts as [|a acts IH] using rev_ind.
    - simpl. rewrite Hl, Hh. simpl. rewrite !count_nil. lia.
    - rewrite run_snoc.
      pose proof (step_submitted a
                    (run acts (domContentLoaded s (loaded t p)))).
      lia. }
  assert (B : count is_submit_timer
                (timers (run acts (domContentLoaded s (loaded t p))))
              + count is_submit_timer
                  (map snd (history
                              (run acts (domContentLoaded s (loaded t p)))))
              <= count six_chars acts).
  { clear A. induction acts as [|a acts IH] using rev_ind.
    - simpl. rewrite Ht, Hh. simpl. rewrite !count_nil. lia.
    - rewrite run_snoc, step_accounting, count_snoc
        by apply is_submit_timer_not_remove.
      pose proof (created_at_most_one _ a _ (L acts)). lia. }
  split; [exact A|]. split; [exact B|]. split; [lia|].
  clear A B. intros V. induction acts as [|a acts IH] using rev_ind.
  - simpl. rewrite Hl, Hh. reflexivity.
  - rewrite forallb_app in V. apply andb_true_iff in V.
    destruct V as [V Va]. simpl in Va. rewrite andb_true_r in Va.
    rewrite run_snoc.
    pose proof (step_attempts a
                  (run acts (domContentLoaded s (loaded t p))) Va).
    specialize (IH V). lia.
Qed.

Lemma at_most_one_submit_witness :
  In main_js revisions /\
  count is_submitted
    (log (run [UserInput 6 (utf16 "123456"); UserInput 6 (utf16 "12345");
               ContentInput 6; Tick 500; Fire]
            (domContentLoaded main_js (loaded 0 login_page))))
  <= 1.
Proof.
  split; [now left|].
  exact (proj1 (proj2 (proj2 (at_most_one_submit_per_complete_input
                                main_js 0%N login_page
                                [UserInput 6 (utf16 "123456");
                                 UserInput 6 (utf16 "12345");
                                 ContentInput 6; Tick 500; Fire]
                                (or_introl eq_refl))))).
Defined.

(** ** The value is not looked at again *)

(** Under main.js every timer is a submit timer. *)
Lemma submit_only_step a w :
  Forall (fun tm => is_submit_timer tm = true) (timers w) ->
  Forall (fun tm => is_submit_timer tm = true) (timers (step a w)).
Proof.
  intros T. destruct a as [dt | | el v | el | tg | g]; simpl; trivial.
  - destruct (fire w) as [w'|] eqn:F; trivial.
    destruct (fire_cases _ _ F) as (tm & rest & N & E).
    destruct (next_timer_in _ _ _ _ N) as [I R].
    rewrite Forall_forall in T.
    assert (T' : Forall (fun tm => is_submit_timer tm = true) rest).
    { apply Forall_forall. intros x Hx. apply T. now apply R. }
    pose proof (T tm I) as M. unfold is_submit_timer in M.
    destruct (callback tm) as [c | m | m]; try discriminate. subst w'.
    now destruct (form (element (page w) c)).
  - rewrite user_input_spec. simpl. apply Forall_app. split; trivial.
    destruct (Nat.eqb (js_length v) 6); [|constructor].
    apply Forall_forall. intros x Hx. apply in_map_iff in Hx.
    now destruct Hx as (r & <- & _).
  - now rewrite content_input_spec.
  - now destruct (user_focus_frame tg w) as [? ->].
Qed.

Lemma submit_only_run acts w :
  Forall (fun tm => is_submit_timer tm = true) (timers w) ->
  Forall (fun tm => is_submit_timer tm = true) (timers (run acts w)).
Proof.
  intros T. induction acts as [|a acts IH] using rev_ind; trivial.
  rewrite run_snoc. now apply submit_only_step.
Qed.

(** As long as nobody else changes the page and no message is removed,
    the form owner of an element stays, and each submit callback for the
    element that runs calls [submit()] on it. *)
Lemma own_step_submits c f a w :
  own a = true ->
  Forall (fun tm => is_submit_timer tm = true) (timers w) ->
  form (element (page w) c) = Some f ->
  form (element (page (step a w)) c) = Some f /\
  exists extra,
    history (step a w) = history w ++ extra /\
    count (submitted f) (log (step a w))
    >= count (submitted f) (log w)
       + count (calls (SubmitForm c)) (map snd extra).
Proof.
  intros Ho T Hf.
  assert (Z : form (element (page w) c) = Some f /\
              exists extra,
                history w = history w ++ extra /\
                count (submitted f) (log w)
                >= count (submitted f) (log w)
                   + count (calls (SubmitForm c)) (map snd extra)).
  { split; trivial. exists []. rewrite app_nil_r. split; trivial.
    simpl. rewrite count_nil. lia. }
  destruct a as [dt | | el v | el | tg | g]; simpl; try discriminate; trivial.
  - destruct (fire w) as [w'|] eqn:F; trivial.
    destruct (fire_cases _ _ F) as (tm & rest & N & E).
    destruct (next_timer_in _ _ _ _ N) as [I _].
    rewrite Forall_forall in T. pose proof (T tm I) as M.
    unfold is_submit_timer in M.
    assert (C : count (calls (SubmitForm c)) (map snd [(now w, tm)])
                = if callback_eqb (callback tm) (SubmitForm c) then 1 else 0).
    { simpl. rewrite count_cons, count_nil. unfold calls. lia. }
    destruct (callback tm) as [x | m | m] eqn:Ec; try discriminate.
    subst w'. destruct (Nat.eqb x c) eqn:Ex.
    + apply Nat.eqb_eq in Ex. subst x. rewrite Hf. simpl.
      split; trivial. exists [(now w, tm)]. split; trivial.
      rewrite count_snoc, C. simpl. rewrite !Nat.eqb_refl. lia.
    + destruct (form (element (page w) x)); simpl;
        (split; trivial; exists [(now w, tm)]; split; trivial;
         rewrite count_snoc, C; simpl; rewrite Ex; lia).
  - rewrite user_input_spec. simpl.
    split; [now destruct (Nat.eqb c el)|].
    exists []. rewrite app_nil_r. split; trivial.
    simpl. rewrite count_nil. lia.
  - rewrite content_input_spec. simpl.
    split; [now destruct (Nat.eqb c el)|].
    exists []. rewrite app_nil_r. split; trivial.
    simpl. rewrite count_nil, count_app. lia.
  - now destruct (user_focus_frame tg w) as [? ->].
Qed.

Lemma own_run_submits c f acts w :
  forallb own acts = true ->
  Forall (fun tm => is_submit_timer tm = true) (timers w) ->
  form (element (page w) c) = Some f ->
  form (element (page (run acts w)) c) = Some f /\
  exists extra,
    history (run acts w) = history w ++ extra /\
    count (submitted f) (log (run acts w))
    >= count (submitted f) (log w)
       + count (calls (SubmitForm c)) (map snd extra).
Proof.
  intros Ho T Hf. induction acts as [|a acts IH] using rev_ind.
  - split; trivial. exists []. rewrite app_nil_r. split; trivial.
    simpl. rewrite count_nil. lia.
  - rewrite forallb_app in Ho. apply andb_true_iff in Ho.
    destruct Ho as [Ho Ha]. simpl in Ha. rewrite andb_true_r in Ha.
    destruct (IH Ho) as (Hf' & extra & Hh & Hl).
    rewrite run_snoc.
    destruct (own_step_submits c f a _ Ha (submit_only_run acts w T) Hf')
      as (Hf'' & extra' & Hh' & Hl').
    split; trivial. exists (extra ++ extra'). split.
    + now rewrite Hh', Hh, app_assoc.
    + rewrite map_app, count_app. lia.
Qed.

Lemma forallb_own_fires n : forallb own (repeat Fire n) = true.
Proof. induction n; simpl; trivial. Qed.

(** X6. Under main.js, once a six-character value has scheduled its
    submit, the form owner of the code input is submitted when the 500 ms
    are over, whatever the user types in between: the callback does not
    look at the value again, so the submit goes ahead even when the value
    has been shortened, changed or emptied by then.  (Stated for a page
    that nobody else changes meanwhile; main.js itself removes nothing
    from the page, so the form owner stays.) *)
Theorem submit_goes_ahead_with_edited_value :
  forall t p c f acts v later,
    findCodeInput p = Some c ->
    js_length v = 6 ->
    forallb own later = true ->
    let w := run acts (domContentLoaded main_js (loaded t p)) in
    form (element (page w) c) = Some f ->
    let w2 := run later (user_input c v w) in
    (now w + 500 <= now w2)%N ->
    count (submitted f) (log (drain w2)) >= S (count (submitted f) (log w)).
Proof.
  intros t p c f acts v later Hc Hv Ho w Hf w2 Hd.
  set (tm := submit_timer (now w) c).
  assert (L : listeners w = [auto_submit_on c])
    by (apply reachable_listeners; trivial; now left).
  assert (T : Forall (fun tm => is_submit_timer tm = true) (timers w)).
  { apply submit_only_run. rewrite ready_main_js. constructor. }
  set (w1 := user_input c v w) in *.
  assert (T1 : Forall (fun tm => is_submit_timer tm = true) (timers w1)).
  { apply (submit_only_step (UserInput c v) w T). }
  assert (P1 : pending_timer tm w1 >= 1).
  { unfold pending_timer, w1.
    rewrite user_input_spec, L, hearing_code_input. simpl.
    rewrite Hv. simpl.
    rewrite count_app, count_cons, count_nil.
    fold (submit_timer (now w) c). fold tm. rewrite timer_eqb_refl. lia. }
  assert (Hf1 : form (element (page w1) c) = Some f).
  { unfold w1. rewrite user_input_spec. simpl. now rewrite Nat.eqb_refl. }
  assert (Hl1 : log w1 = log w) by (unfold w1; now rewrite user_input_spec).
  destruct (timer_runs tm later w1 Hd) as [_ R]. fold w2 in R.
  assert (E : drain w2
              = run (later ++ repeat Fire (List.length (timers w2))) w1)
    by (rewrite run_app; apply fire_all_run).
  destruct (own_run_submits c f
              (later ++ repeat Fire (List.length (timers w2))) w1)
    as (_ & extra & Hh & Hl); trivial.
  { rewrite forallb_app, Ho. apply forallb_own_fires. }
  rewrite <- E in Hh, Hl. rewrite Hl1 in Hl.
  assert (X : count (timer_eqb tm) (map snd extra) >= 1).
  { unfold ran_timer in R. rewrite Hh, map_app, count_app in R. lia. }
  assert (Y : count (timer_eqb tm) (map snd extra)
              <= count (calls (SubmitForm c)) (map snd extra)).
  { apply count_le_impl. intros x Hx. apply timer_eqb_eq in Hx. subst x.
    unfold calls, tm. simpl. apply Nat.eqb_refl. }
  lia.
Qed.

Lemma submit_goes_ahead_witness :
  findCodeInput login_page = Some 6 /\
  js_length (utf16 "123456") = 6 /\
  js_length (utf16 "12") <> 6 /\
  count (submitted 5)
    (log (drain (run [Tick 100; UserInput 6 (utf16 "12"); Tick 400]
                   (user_input 6 (utf16 "123456")
                      (run [] (domContentLoaded main_js
                                 (loaded 0 login_page)))))))
  >= 1.
Proof.
  split; [reflexivity|]. split; [reflexivity|].
  split; [discriminate|].
  apply (submit_goes_ahead_with_edited_value
           0%N login_page 6 5 [] (utf16 "123456")
           [Tick 100; UserInput 6 (utf16 "12"); Tick 400]
           eq_refl eq_refl eq_refl eq_refl).
  vm_compute. discriminate.
Defined.

(** ** Which messages are dismissed *)

Lemma count_calls_single cb tm :
  count (calls cb) [tm] = if callback_eqb (callback tm) cb then 1 else 0.
Proof. rewrite count_cons, count_nil. unfold calls. lia. Qed.

(** A removal is scheduled only by the dismissal of the same message. *)
Lemma removal_bound_step m a w :
  pending (RemoveMessage m) w + ran (RemoveMessage m) w
  <= ran (DismissMessage m) w ->
  pending (RemoveMessage m) (step a w) + ran (RemoveMessage m) (step a w)
  <= ran (DismissMessage m) (step a w).
Proof.
  unfold pending, ran. intros I.
  destruct a as [dt | | el v | el | tg | f]; simpl; trivial.
  - destruct (fire w) as [w'|] eqn:F; trivial.
    destruct (fire_cases _ _ F) as (tm & rest & N & E).
    destruct (next_timer_some _ _ _ _ N) as [_ C].
    rewrite (C (calls (RemoveMessage m))), count_cons in I.
    unfold calls at 1 in I.
    destruct (callback tm) as [x | x | x] eqn:Ec; subst w'.
    + destruct (form (element (page w) x)); simpl;
        rewrite !map_app, !count_app; simpl;
        rewrite !count_calls_single, Ec; simpl in *; lia.
    + destruct (closeButton (page w) x); simpl;
        rewrite !map_app, !count_app; simpl;
        rewrite ?count_app, !count_calls_single, Ec; simpl in *;
        destruct (Nat.eqb x m); lia.
    + simpl. rewrite !map_app, !count_app. simpl.
      rewrite !count_calls_single, Ec. simpl in *.
      destruct (Nat.eqb x m); lia.
  - rewrite user_input_spec. simpl. rewrite count_app.
    replace (count (calls (RemoveMessage m))
               (if Nat.eqb (js_length v) 6
                then map (fun _ => mkTimer (now w + 500) (SubmitForm el))
                       (hearing "input" el (page w) (listeners w))
                else [])) with 0; [lia|].
    symmetry. apply count_zero. intros x Hx.
    destruct (Nat.eqb (js_length v) 6); [|destruct Hx].
    apply in_map_iff in Hx. now destruct Hx as (r & <- & _).
  - now rewrite content_input_spec.
  - now destruct (user_focus_frame tg w) as [? ->].
Qed.

Lemma removal_bound s t p m acts :
  In s revisions ->
  let w := run acts (domContentLoaded s (loaded t p)) in
  pending (RemoveMessage m) w + ran (RemoveMessage m) w
  <= ran (DismissMessage m) w.
Proof.
  intros Hs. cbv zeta. induction acts as [|a acts IH] using rev_ind.
  - simpl. unfold pending, ran. destruct Hs as [<- | [<- | Hs]].
    + now rewrite ready_main_js.
    + rewrite ready_main_js_flash. simpl. rewrite !count_nil, Nat.add_0_r.
      apply Nat.eq_le_incl, count_zero.
      intros x Hx. apply in_map_iff in Hx. now destruct Hx as (y & <- & _).
    + now rewrite ready_focus_only.
  - rewrite run_snoc. now apply removal_bound_step.
Qed.

(** X7. Under the flash revision only the error messages that stand in
    the document at page-ready are ever dismissed.  For any other element
    (one without the class [alert-error], or one that is not in the
    document then, even if it gets the class or joins the document later)
    no dismissal and no removal is ever pending and none ever runs. *)
Theorem only_error_messages_are_dismissed :
  forall t p acts m,
    ~ (In m (tree_order (document p)) /\ has_class p "alert-error" m) ->
    let w := run acts (domContentLoaded main_js_flash (loaded t p)) in
    pending (DismissMessage m) w = 0 /\ ran (DismissMessage m) w = 0 /\
    pending (RemoveMessage m) w = 0 /\ ran (RemoveMessage m) w = 0.
Proof.
  intros t p acts m H w.
  assert (A : pending (DismissMessage m) w + ran (DismissMessage m) w = 0).
  { unfold w. rewrite dismissals_accounting, ready_main_js_flash.
    unfold pending, ran. simpl. rewrite count_nil, Nat.add_0_r.
    rewrite count_dismiss_timers. apply count_zero. intros x Hx.
    destruct (Nat.eqb m x) eqn:E; trivial.
    apply Nat.eqb_eq in E. subst x. exfalso. apply H.
    unfold querySelectorAll in Hx. apply filter_In in Hx.
    destruct Hx as [I M]. split; trivial. now apply matches_has_class. }
  pose proof (removal_bound main_js_flash t p m acts
                (or_intror (or_introl eq_refl))) as B.
  fold w in B. cbv zeta in B. repeat split; lia.
Qed.

Lemma only_error_messages_witness :
  ~ (In 5 (tree_order (document login_page)) /\
     has_class login_page "alert-error" 5) /\
  ran (DismissMessage 5)
    (run [Mutate (update_element 5
                    (fun e => mkElement (localName e) (attributes e)
                                ["alert-error"] (value e) (form e)
                                (style e) (focusable e)));
          Tick 300000; Fire; Fire; Fire]
       (domContentLoaded main_js_flash (loaded 0 login_page))) = 0.
Proof.
  assert (H : ~ (In 5 (tree_order (document login_page)) /\
                 has_class login_page "alert-error" 5))
    by (intros [_ []]).
  split; [exact H|].
  exact (proj1 (proj2 (only_error_messages_are_dismissed
                         0%N login_page
                         [Mutate (update_element 5
                                    (fun e => mkElement (localName e)
                                                (attributes e)
                                                ["alert-error"] (value e)
                                                (form e) (style e)
                                                (focusable e)));
                          Tick 300000; Fire; Fire; Fire] 5 H))).
Defined.

(** ** The flash messages, from page-ready to removal *)

Lemma next_timer_head t tm r :
  is_due t tm = true ->
  (forall x, In x r -> is_due t x = true -> (due tm <= due x)%N) ->
  next_timer t (tm :: r) = Some (tm, r).
Proof.
  intros D H. simpl.
  destruct (next_timer t r) as [[tm' r']|] eqn:N.
  - destruct (next_timer_some _ _ _ _ N) as [D' _].
    destruct (next_timer_in _ _ _ _ N) as [I _].
    specialize (H tm' I D'). apply N.leb_le in H. now rewrite D, H.
  - now rewrite D.
Qed.

Lemma fire_all_idle n w : fire w = None -> fire_all n w = w.
Proof. intros H. destruct n; simpl; trivial. now rewrite H. Qed.

Lemma find_ext_in {A} (P Q : A -> bool) l :
  (forall x, In x l -> P x = Q x) -> find P l = find Q l.
Proof.
  intros H. induction l as [|a l IH]; trivial.
  simpl. rewrite (H a) by now left.
  destruct (Q a); trivial. apply IH. intros x Hx. apply H. now right.
Qed.

(** The close button of a message depends on the two forests and on the
    classes only. *)
Lemma closeButton_same p p' m :
  document p' = document p -> detached p' = detached p ->
  (forall x, classList (element p' x) = classList (element p x)) ->
  closeButton p' m = closeButton p m.
Proof.
  intros D T C. unfold closeButton, element_querySelector, subtree_of.
  rewrite D, T. apply find_ext_in. intros x _. simpl. now rewrite C.
Qed.

Lemma clicks_same p p' ms :
  (forall m, closeButton p' m = closeButton p m) ->
  clicks p' ms = clicks p ms.
Proof.
  intros H. unfold clicks. induction ms as [|m ms IH]; simpl; trivial.
  now rewrite H, IH.
Qed.

Lemma fading_same p p' ms :
  (forall m, closeButton p' m = closeButton p m) ->
  fading p' ms = fading p ms.
Proof.
  intros H. unfold fading. induction ms as [|m ms IH]; simpl; trivial.
  now rewrite H, IH.
Qed.

Lemma dismiss_timer_due t m : due (dismiss_timer t m) = (t + 300000)%N.
Proof. reflexivity. Qed.

(** The dismissals that are due run in document order; what they leave
    behind is read off the page as it is when they start. *)
Lemma dismiss_in_order t ms :
  forall n extra w,
    timers w = map (dismiss_timer t) ms ++ extra ->
    (forall x, In x extra -> is_due (now w) x = false) ->
    (t + 300000 <= now w)%N ->
    List.length ms <= n ->
    let w' := fire_all n w in
    now w' = now w /\
    log w' = log w ++ clicks (page w) ms /\
    timers w' = extra ++ map (remove_timer (now w)) (fading (page w) ms) /\
    history w' = history w ++ map (fun m => (now w, dismiss_timer t m)) ms /\
    document (page w') = document (page w) /\
    detached (page w') = detached (page w) /\
    forall x,
      element (page w') x
      = if existsb (Nat.eqb x) (fading (page w) ms)
        then set_opacity "0" (set_transition "opacity 0.5s"
                                (element (page w) x))
        else element (page w) x.
Proof.
  induction ms as [|m ms IH]; intros n extra w T E D Hn; cbv zeta.
  - simpl in T. rewrite fire_all_idle.
    + simpl. rewrite !app_nil_r. repeat split; trivial.
    + apply fire_none, count_zero. now rewrite T.
  - destruct n as [|n]; [simpl in Hn; lia|]. simpl in Hn.
    set (tm := dismiss_timer t m).
    set (rest := map (dismiss_timer t) ms ++ extra).
    assert (N : next_timer (now w) (timers w) = Some (tm, rest)).
    { rewrite T. apply next_timer_head.
      - unfold is_due, tm. rewrite dismiss_timer_due. now apply N.leb_le.
      - intros x Hx Dx. apply in_app_iff in Hx. destruct Hx as [Hx | Hx].
        + apply in_map_iff in Hx. destruct Hx as (y & <- & _).
          unfold tm. rewrite !dismiss_timer_due. lia.
        + rewrite (E x Hx) in Dx. discriminate. }
    assert (F : fire w
                = Some (report (run_callback (callback tm)
                                  (started tm (set_timers rest w)))
                          (started tm (set_timers rest w)))).
    { unfold fire. now rewrite N. }
    cbn [fire_all]. rewrite F. clear F N.
    change (callback tm) with (DismissMessage m).
    cbn [run_callback].
    change (page (started tm (set_timers rest w))) with (page w).
    fold (closeButton (page w) m).
    unfold clicks, fading. cbn [flat_map filter].
    fold (clicks (page w) ms). fold (fading (page w) ms).
    destruct (closeButton (page w) m) as [b|] eqn:Cb.
    + cbn [report].
      destruct (IH n extra (click b (started tm (set_timers rest w))))
        as (A1 & A2 & A3 & A4 & A5 & A6 & A7); trivial; try lia.
      cbn [page click emit started set_timers now log history] in *.
      rewrite A1, A2, A3, A4, A5, A6. repeat split; trivial.
      * now rewrite <- app_assoc.
      * now rewrite <- app_assoc.
    + cbn [report].
      set (w1 := setTimeout (RemoveMessage m) 500 _).
      assert (S : forall x, closeButton (page w1) x = closeButton (page w) x).
      { intros x. apply closeButton_same; trivial.
        intros y. simpl. now destruct (Nat.eqb y m). }
      destruct (IH n (extra ++ [remove_timer (now w) m]) w1)
        as (A1 & A2 & A3 & A4 & A5 & A6 & A7); trivial; try lia.
      { unfold w1. simpl. unfold rest. now rewrite <- app_assoc. }
      { intros x Hx. apply in_app_iff in Hx. destruct Hx as [Hx | [<- | []]].
        - now apply E.
        - apply not_due_later. lia. }
      rewrite (clicks_same _ _ _ S), (fading_same _ _ _ S) in *.
      change (now w1) with (now w) in *.
      change (log w1) with (log w) in *.
      change (history w1) with (history w ++ [(now w, tm)]) in *.
      change (document (page w1)) with (document (page w)) in *.
      change (detached (page w1)) with (detached (page w)) in *.
      rewrite A1, A2, A3, A4, A5, A6. repeat split; trivial.
      * now rewrite <- app_assoc.
      * now rewrite <- app_assoc.
      * intros x. rewrite A7. cbn [existsb]. unfold w1. simpl.
        destruct (Nat.eqb x m); simpl;
          now destruct (existsb (Nat.eqb x) (fading (page w) ms)).
Qed.

Lemma flash_messages_dismissed_in_order_aux t p d :
  (300000 <= d)%N ->
  let messages := querySelectorAll (Class "alert-error") p in
  let w := drain (tick d (domContentLoaded main_js_flash (loaded t p))) in
  log w = clicks p messages /\
  timers w = map (remove_timer (t + d)) (fading p messages) /\
  document (page w) = document p /\
  now w = (t + d)%N.
Proof.
  intros Hd messages w.
  set (w0 := tick d (domContentLoaded main_js_flash (loaded t p))).
  assert (T : timers w0 = map (dismiss_timer t) messages ++ [])
    by (unfold w0; rewrite ready_main_js_flash; simpl; now rewrite app_nil_r).
  assert (P : page w0 = p)
    by (unfold w0; now rewrite ready_main_js_flash).
  assert (N : now w0 = (t + d)%N)
    by (unfold w0; now rewrite ready_main_js_flash).
  assert (L : log w0 = [])
    by (unfold w0; now rewrite ready_main_js_flash).
  destruct (dismiss_in_order t messages (List.length (timers w0)) [] w0)
    as (A1 & A2 & A3 & _ & A5 & _); trivial.
  { intros x []. }
  { lia. }
  { rewrite T, app_nil_r, length_map. lia. }
  fold (drain w0) in A1, A2, A3, A5. fold w in A1, A2, A3, A5.
  rewrite P, N, ?L in *. repeat split; trivial.
Qed.

(** X8. Five minutes after page-ready, on a page where nothing else
    happened, the loop runs one dismissal per error message, in document
    order.  The log then holds one click per message that contains a
    close button, in that order, and nothing else; the messages without
    one, and only they, have the faded style and a removal pending 500 ms
    later; the document is still as it was. *)
Theorem flash_messages_dismissed_in_document_order :
  forall t p d,
    (300000 <= d)%N ->
    let messages := querySelectorAll (Class "alert-error") p in
    let w := drain (tick d (domContentLoaded main_js_flash (loaded t p))) in
    log w = clicks p messages /\
    history w = map (fun m => ((t + d)%N, dismiss_timer t m)) messages /\
    timers w = map (remove_timer (t + d)) (fading p messages) /\
    document (page w) = document p /\
    forall x,
      style (element (page w) x)
      = if existsb (Nat.eqb x) (fading p messages) then faded
        else style (element p x).
Proof.
  intros t p d Hd messages w.
  set (w0 := tick d (domContentLoaded main_js_flash (loaded t p))).
  assert (T : timers w0 = map (dismiss_timer t) messages ++ [])
    by (unfold w0; rewrite ready_main_js_flash; simpl; now rewrite app_nil_r).
  assert (P : page w0 = p)
    by (unfold w0; now rewrite ready_main_js_flash).
  assert (N : now w0 = (t + d)%N)
    by (unfold w0; now rewrite ready_main_js_flash).
  assert (L : log w0 = [] /\ history w0 = [])
    by (unfold w0; now rewrite ready_main_js_flash).
  destruct L as [L H].
  destruct (dismiss_in_order t messages (List.length (timers w0)) [] w0)
    as (_ & A2 & A3 & A4 & A5 & _ & A7); trivial.
  { intros x []. }
  { lia. }
  { rewrite T, app_nil_r, length_map. lia. }
  fold (drain w0) in A2, A3, A4, A5, A7. fold w in A2, A3, A4, A5, A7.
  rewrite P, N, ?L, ?H in *. repeat split; trivial.
  intros x. rewrite A7.
  now destruct (existsb (Nat.eqb x) (fading p messages)).
Qed.

Lemma flash_order_witness :
  (300000 <= 300000)%N /\
  log (drain (tick 300000
                (domContentLoaded main_js_flash (loaded 0 login_page))))
  = [Clicked 3].
Proof.
  assert (H : (300000 <= 300000)%N) by reflexivity.
  split; [exact H|].
  exact (proj1 (flash_messages_dismissed_in_document_order
                  0%N login_page 300000%N H)).
Defined.

(** The removals that are due run one after the other; each takes its
    message out of the document, and none brings anything back. *)
Lemma remove_in_order T ms :
  forall n w,
    timers w = map (remove_timer T) ms ->
    (T + 500 <= now w)%N ->
    List.length ms <= n ->
    let w' := fire_all n w in
    timers w' = [] /\ log w' = log w /\
    (forall m, In m ms -> ~ In m (tree_order (document (page w')))) /\
    (forall x, In x (tree_order (document (page w'))) ->
               In x (tree_order (document (page w)))).
Proof.
  induction ms as [|m ms IH]; intros n w Tm D Hn; cbv zeta.
  - simpl in Tm. rewrite fire_all_idle.
    + repeat split; trivial. intros m [].
    + apply fire_none, count_zero. now rewrite Tm.
  - destruct n as [|n]; [simpl in Hn; lia|]. simpl in Hn.
    set (tm := remove_timer T m).
    set (rest := map (remove_timer T) ms).
    assert (N : next_timer (now w) (timers w) = Some (tm, rest)).
    { rewrite Tm. apply next_timer_head.
      - unfold is_due. simpl. now apply N.leb_le.
      - intros x Hx _. apply in_map_iff in Hx. destruct Hx as (y & <- & _).
        simpl. lia. }
    cbn [fire_all]. unfold fire. rewrite N.
    change (callback tm) with (RemoveMessage m).
    cbn [run_callback report].
    set (w1 := detach m (started tm (set_timers rest w))).
    destruct (IH n w1) as (A1 & A2 & A3 & A4); trivial; try lia.
    rewrite A1, A2. repeat split; trivial.
    + intros x [<- | Hx]; [|now apply A3].
      intros H. apply A4 in H. unfold w1 in H. simpl in H.
      now apply remove_detaches in H.
    + intros x H. apply A4 in H. unfold w1 in H. simpl in H.
      now apply remove_shrinks in H.
Qed.

(** X9. Half a second after the dismissals, on a page where nothing else
    happened, every error message without a close button is out of the
    document; nothing was added to the document, no timer is left, and
    the log still holds the clicks only: the script never submits and
    never raises on its way. *)
Theorem faded_messages_leave_the_document :
  forall t p d d',
    (300000 <= d)%N -> (500 <= d')%N ->
    let messages := querySelectorAll (Class "alert-error") p in
    let w1 := drain (tick d (domContentLoaded main_js_flash (loaded t p))) in
    let w2 := drain (tick d' w1) in
    timers w2 = [] /\
    log w2 = clicks p messages /\
    (forall m, In m (fading p messages) ->
               ~ In m (tree_order (document (page w2)))) /\
    (forall x, In x (tree_order (document (page w2))) ->
               In x (tree_order (document p))).
Proof.
  intros t p d d' Hd Hd' messages w1 w2.
  destruct (flash_messages_dismissed_in_order_aux t p d Hd)
    as (L & T & Dc & N).
  fold messages in L, T. fold w1 in L, T, Dc, N.
  destruct (remove_in_order (t + d) (fading p messages)
              (List.length (timers (tick d' w1))) (tick d' w1))
    as (A1 & A2 & A3 & A4).
  { exact T. }
  { change (now (tick d' w1)) with (now w1 + d')%N. rewrite N. lia. }
  { change (timers (tick d' w1)) with (timers w1).
    rewrite T, length_map. lia. }
  fold (drain (tick d' w1)) in A1, A2, A3, A4. fold w2 in A1, A2, A3, A4.
  change (log (tick d' w1)) with (log w1) in A2.
  change (page (tick d' w1)) with (page w1) in A4.
  rewrite Dc in A4. rewrite L in A2.
  repeat split; trivial.
Qed.

Lemma faded_messages_witness :
  (300000 <= 300000)%N /\ (500 <= 500)%N /\
  ~ In 4 (tree_order
            (document
               (page (drain (tick 500
                        (drain (tick 300000
                                  (domContentLoaded main_js_flash
                                     (loaded 0 login_page))))))))).
Proof.
  assert (H : (300000 <= 300000)%N) by reflexivity.
  assert (H' : (500 <= 500)%N) by reflexivity.
  split; [exact H|]. split; [exact H'|].
  apply (proj1 (proj2 (proj2 (faded_messages_leave_the_document
                                0%N login_page 300000%N 500%N H H'))) 4).
  vm_compute. now left.
Defined.

(** ** What main.js leaves alone *)

Lemma findCodeInput_same p p' :
  document p' = document p ->
  (forall x, same_but_value (element p' x) (element p x)) ->
  findCodeInput p' = findCodeInput p.
Proof.
  intros D E. unfold findCodeInput, getElementById, querySelector.
  rewrite D.
  assert (A : forall n v x, attr_is p' n v x = attr_is p n v x).
  { intros n v x. unfold attr_is. destruct (E x) as (_ & -> & _). trivial. }
  assert (M : forall s x, matches p' s x = matches p s x).
  { intros [tag a v | cls] x; simpl.
    - rewrite A. destruct (E x) as (-> & _). trivial.
    - destruct (E x) as (_ & _ & -> & _). trivial. }
  rewrite (find_ext_in (attr_is p' "id" "code") (attr_is p "id" "code"))
    by (intros; apply A).
  rewrite (find_ext_in (matches p' (TagAttr "input" "pattern" "[0-9]{6}"))
             (matches p (TagAttr "input" "pattern" "[0-9]{6}")))
    by (intros; apply M).
  rewrite (find_ext_in (matches p' (TagAttr "input" "maxlength" "6"))
             (matches p (TagAttr "input" "maxlength" "6")))
    by (intros; apply M).
  reflexivity.
Qed.

Lemma untouched_step p a w :
  own a = true ->
  (forall tm, In tm (timers w) -> is_submit_timer tm = true) ->
  document (page w) = document p -> detached (page w) = detached p ->
  (forall x, same_but_value (element (page w) x) (element p x)) ->
  (forall tm, In tm (timers (step a w)) -> is_submit_timer tm = true) /\
  document (page (step a w)) = document p /\
  detached (page (step a w)) = detached p /\
  (forall x, same_but_value (element (page (step a w)) x) (element p x)).
Proof.
  intros Ho T D De E. destruct a as [dt | | el v | el | tg | g]; simpl;
    try discriminate; auto.
  - destruct (fire w) as [w'|] eqn:F; auto.
    destruct (fire_cases _ _ F) as (tm & rest & N & C).
    destruct (next_timer_in _ _ _ _ N) as [I S].
    specialize (T tm I) as Ts. unfold is_submit_timer in Ts.
    destruct (callback tm) as [c | m | m]; try discriminate. subst w'.
    destruct (form (element (page w) c)); simpl;
      (split; [intros x Hx; now apply T, S | auto]).
  - rewrite user_input_spec. simpl.
    split; [|split; [trivial | split; [trivial|]]].
    + intros tm Htm. apply in_app_iff in Htm. destruct Htm as [Htm | Htm];
        [now apply T|].
      destruct (Nat.eqb (js_length v) 6); [|destruct Htm].
      apply in_map_iff in Htm. now destruct Htm as (r & <- & _).
    + intros x. destruct (Nat.eqb x el); [|apply E].
      destruct (E x) as (A1 & A2 & A3 & A4 & A5 & A6). now repeat split.
  - rewrite content_input_spec. simpl.
    split; [trivial | split; [trivial | split; [trivial|]]].
    intros x. destruct (Nat.eqb x el); [|apply E].
    destruct (E x) as (A1 & A2 & A3 & A4 & A5 & A6). now repeat split.
  - destruct (user_focus_frame tg w) as [? ->]. simpl. auto.
Qed.

(** X10. main.js and the two focus-only revisions never change the
    document: as long as nobody else changes the page, the two forests
    stay as they were at page-ready and every element keeps its tag, its
    attributes, its classes, its form owner and its style; only the
    values the user types change.  So the lookup keeps finding the same
    element. *)
Theorem main_js_leaves_the_document_alone :
  forall s t p acts,
    In s without_flash ->
    forallb own acts = true ->
    let w := run acts (domContentLoaded s (loaded t p)) in
    document (page w) = document p /\
    detached (page w) = detached p /\
    (forall x, same_but_value (element (page w) x) (element p x)) /\
    findCodeInput (page w) = findCodeInput p.
Proof.
  intros s t p acts Hs Ho w.
  assert (I : (forall tm, In tm (timers w) -> is_submit_timer tm = true) /\
              document (page w) = document p /\
              detached (page w) = detached p /\
              (forall x, same_but_value (element (page w) x) (element p x))).
  { unfold w. induction acts as [|a acts IH] using rev_ind.
    - simpl. destruct Hs as [<- | Hs].
      + rewrite ready_main_js. simpl. repeat split; tauto.
      + rewrite ready_focus_only by exact Hs. simpl. repeat split; tauto.
    - rewrite forallb_app in Ho. apply andb_true_iff in Ho.
      destruct Ho as [Ho Ha]. simpl in Ha. rewrite andb_true_r in Ha.
      destruct (IH Ho) as (T & D & De & E).
      rewrite run_snoc. now apply untouched_step. }
  destruct I as (_ & D & De & E). repeat split; trivial; try apply E.
  now apply findCodeInput_same.
Qed.

Lemma main_js_leaves_witness :
  In main_js without_flash /\
  document
    (page (run [UserInput 6 (utf16 "123456"); Tick 500; Fire]
             (domContentLoaded main_js (loaded 0 login_page))))
  = document login_page.
Proof.
  split; [now left|].
  exact (proj1 (main_js_leaves_the_document_alone
                  main_js 0%N login_page
                  [UserInput 6 (utf16 "123456"); Tick 500; Fire]
                  (or_introl eq_refl) eq_refl)).
Defined.

(** ** Removals come after the dismissals *)

Lemma flash_order_step t a w :
  timing t w -> flash_order t w -> flash_order t (step a w).
Proof.
  intros [Rd Dp _] [RL RR DD]. destruct a as [dt | | el v | el | tg | g]; simpl.
  - now constructor.
  - destruct (fire w) as [w'|] eqn:F; [|now constructor].
    destruct (fire_cases _ _ F) as (tm & rest & N & C).
    destruct (next_timer_some _ _ _ _ N) as [Du _].
    destruct (next_timer_in _ _ _ _ N) as [I S].
    pose proof (next_timer_earliest _ _ _ _ N) as Early.
    unfold is_due in Du. apply N.leb_le in Du.
    destruct (callback tm) as [c | m | m] eqn:Ec; subst w'.
    + assert (X : forall f, flash_order t
                    (emit f (started tm (set_timers rest w)))).
      { intros f. constructor; simpl.
        - intros x y Hx. apply RL. auto.
        - intros at_ x y Hx Hc. apply in_app_iff in Hx.
          destruct Hx as [Hx | [[= <- <-] | []]]; [now apply (RR at_ x y)|].
          congruence.
        - intros at_ x y z m' Hx Hc Hz. apply in_app_iff in Hx.
          destruct Hx as [Hx | [[= <- <-] | []]]; [|congruence].
          apply (DD at_ x y z m' Hx Hc). auto. }
      destruct (form (element (page w) c)); apply X.
    + assert (NoR : forall at_ x y,
                 In (at_, x) (history w ++ [(now w, tm)]) ->
                 callback x = RemoveMessage y -> False).
      { intros at_ x y Hx Hc. apply in_app_iff in Hx.
        destruct Hx as [Hx | [[= <- <-] | []]]; [|congruence].
        apply (DD at_ x y tm m Hx Hc I Ec). }
      pose proof (Dp tm m I Ec) as Dtm.
      change (5 * 60 * 1000)%N with 300000%N in Dtm.
      destruct (closeButton (page w) m); constructor; simpl.
      * intros x y Hx. apply RL. auto.
      * intros at_ x y Hx Hc. destruct (NoR at_ x y Hx Hc).
      * intros at_ x y z m' Hx Hc. destruct (NoR at_ x y Hx Hc).
      * intros x y Hx Hc. apply in_app_iff in Hx.
        destruct Hx as [Hx | [<- | []]]; [apply (RL x y); auto|].
        simpl. lia.
      * intros at_ x y Hx Hc. destruct (NoR at_ x y Hx Hc).
      * intros at_ x y z m' Hx Hc. destruct (NoR at_ x y Hx Hc).
    + pose proof (RL tm m I Ec) as Ltm.
      constructor; simpl.
      * intros x y Hx. apply RL. auto.
      * intros at_ x y Hx Hc. apply in_app_iff in Hx.
        destruct Hx as [Hx | [[= <- <-] | []]]; [now apply (RR at_ x y)|].
        lia.
      * intros at_ x y z m' _ _ Hz Hcz.
        pose proof (Dp z m' (S z Hz) Hcz) as Dz.
        change (5 * 60 * 1000)%N with 300000%N in Dz.
        assert (Dz' : is_due (now w) z = true)
          by (unfold is_due; apply N.leb_le; lia).
        specialize (Early z (S z Hz) Dz'). lia.
  - rewrite user_input_spec. constructor; simpl.
    + intros x y Hx Hc. apply in_app_iff in Hx.
      destruct Hx as [Hx | Hx]; [now apply (RL x y)|].
      destruct (Nat.eqb (js_length v) 6); [|destruct Hx].
      apply in_map_iff in Hx. destruct Hx as (r & <- & _). discriminate.
    + exact RR.
    + intros at_ x y z m' Hx Hc Hz. apply in_app_iff in Hz.
      destruct Hz as [Hz | Hz]; [now apply (DD at_ x y z m')|].
      destruct (Nat.eqb (js_length v) 6); [|destruct Hz].
      apply in_map_iff in Hz. destruct Hz as (r & <- & _). discriminate.
  - rewrite content_input_spec. now constructor.
  - destruct (user_focus_frame tg w) as [? ->]. now constructor.
  - now constructor.
Qed.

(** X11. Under the flash revision, whatever else happens on the page, no
    message is removed earlier than 300500 ms after page-ready, and none
    is removed while a dismissal is still pending: every message gets its
    click or its fade before the first one leaves the document. *)
Theorem removals_come_after_all_dismissals :
  forall t p acts,
    let w := run acts (domContentLoaded main_js_flash (loaded t p)) in
    (forall at_ tm m,
        In (at_, tm) (history w) -> callback tm = RemoveMessage m ->
        (t + 300500 <= at_)%N) /\
    (forall m m',
        ran (RemoveMessage m) w = 0 \/ pending (DismissMessage m') w = 0).
Proof.
  intros t p acts w.
  assert (O : flash_order t w).
  { unfold w. induction acts as [|a acts IH] using rev_ind.
    - change (flash_order t (domContentLoaded main_js_flash (loaded t p))).
      rewrite ready_main_js_flash. constructor; simpl; try tauto.
      intros tm m H Hc. apply in_map_iff in H.
      destruct H as (x & <- & _). discriminate.
    - rewrite run_snoc. apply flash_order_step; trivial.
      apply timing_run, timing_ready. right. now left. }
  destruct O as [_ RR DD]. split.
  - intros at_ tm m H Hc. specialize (RR at_ tm m H Hc). lia.
  - intros m m'.
    destruct (ran (RemoveMessage m) w) eqn:R; [now left|]. right.
    apply count_zero. intros x Hx.
    destruct (calls (DismissMessage m') x) eqn:E; trivial.
    apply callback_eqb_eq in E. exfalso.
    assert (H : exists e, In e (history w) /\
                          calls (RemoveMessage m) (snd e) = true).
    { unfold ran, count in R.
      destruct (filter (calls (RemoveMessage m)) (map snd (history w)))
        as [|y l] eqn:Fl; [discriminate|].
      assert (Hy : In y (filter (calls (RemoveMessage m))
                           (map snd (history w))))
        by (rewrite Fl; now left).
      apply filter_In in Hy. destruct Hy as [Hy Cy].
      apply in_map_iff in Hy. destruct Hy as (e & <- & He). now exists e. }
    destruct H as ([at_ tm] & He & Ce). simpl in Ce.
    apply callback_eqb_eq in Ce.
    exact (DD at_ tm m x m' He Ce Hx E).
Qed.

(** ** A removed message takes what it holds out of its form *)


